(** * Collaboration core of colab-tool: edit applier, position transform,
      presence registry and client stores.

    The development follows the TypeScript sources:
    - [server/src/utils/ot.ts]       : module [OT]
    - [server/src/socket.ts]         : module [Socket]
    - [client/.../EditorContext.tsx] : module [EditorContext]
    - [mobile/.../EditorContext.tsx] : modules [MobileEditorContext]
                                       and [MobileStore]

    Numbers that the code uses as offsets, lengths and timestamps are
    integers ([Z]); strings are sequences of code units ([string]); an
    optional field [f?: T] is an [option T]. *)

From Stdlib Require Import ZArith String Ascii List Bool Lia.
From stdpp Require Import gmap strings list fin_maps.

Local Open Scope Z_scope.

(** ** JavaScript primitives used by the sources *)

Module JS.

(** Result of a call that may throw: [msg] is the message of the error,
    with its class in front when the runtime throws it ([TypeError]). *)
Inductive result (A : Type) : Type :=
| Ok (a : A)
| Throw (msg : string).
Arguments Ok {A} a.
Arguments Throw {A} msg.

(** [s.length] *)
Definition strlen (s : string) : Z := Z.of_nat (String.length s).

(** Relative index of [String.prototype.slice]: a negative index counts
    from the end, and everything is cut to [0 .. len]. *)
Definition relIndex (len i : Z) : Z :=
  if i <? 0 then Z.max (len + i) 0 else Z.min i len.

(** [s.slice(start, end)] *)
Definition slice (s : string) (start end_ : Z) : string :=
  let len := strlen s in
  let from := relIndex len start in
  let to := relIndex len end_ in
  String.substring (Z.to_nat from) (Z.to_nat (Z.max (to - from) 0)) s.

(** [s.slice(start)] *)
Definition sliceFrom (s : string) (start : Z) : string :=
  let len := strlen s in
  let from := relIndex len start in
  String.substring (Z.to_nat from) (Z.to_nat (Z.max (len - from) 0)) s.

(** Truthiness of an optional string: [undefined] and the empty string
    are falsy. *)
Definition truthyString (t : option string) : bool :=
  match t with
  | Some s => negb (String.eqb s "")
  | None => false
  end.

(** Truthiness of an optional number: [undefined] and [0] are falsy. *)
Definition truthyNumber (n : option Z) : bool :=
  match n with
  | Some z => negb (z =? 0)
  | None => false
  end.


End JS.

(** ** server/src/utils/ot.ts *)

Module OT.
Import JS.

(** [type: 'insert' | 'delete'].  The third constructor stands for any
    other tag that arrives at run time; it is what the [default] branch
    of [applyOperation] catches. *)
Inductive OperationType : Type :=
| insert
| delete
| otherType.

Definition type_eqb (a b : OperationType) : bool :=
  match a, b with
  | insert, insert | delete, delete | otherType, otherType => true
  | _, _ => false
  end.

Record TextOperation : Type := mkOp {
  type : OperationType;
  position : Z;
  text : option string;
  length : option Z;
  userId : string;
  documentId : string;
  timestamp : Z;
  version : Z
}.

(** [{ ...operation, position: p }] *)
Definition withPosition (operation : TextOperation) (p : Z) : TextOperation :=
  {| type := type operation;
     position := p;
     text := text operation;
     length := length operation;
     userId := userId operation;
     documentId := documentId operation;
     timestamp := timestamp operation;
     version := version operation |}.

(** [operation.text] once it is known to be truthy. *)
Definition textOf (operation : TextOperation) : string :=
  match text operation with Some t => t | None => EmptyString end.

(** [operation.length] once it is known to be truthy. *)
Definition lengthOf (operation : TextOperation) : Z :=
  match length operation with Some n => n | None => 0 end.

Definition applyInsert (content : string) (operation : TextOperation)
  : result string :=
  if negb (type_eqb (type operation) insert)
     || negb (truthyString (text operation))
  then Throw "Invalid insert operation"
  else
    let position := Z.min (position operation) (strlen content) in
    Ok (slice content 0 position ++ textOf operation
        ++ sliceFrom content position)%string.

Definition applyDelete (content : string) (operation : TextOperation)
  : result string :=
  if negb (type_eqb (type operation) delete)
     || negb (truthyNumber (length operation))
  then Throw "Invalid delete operation"
  else
    let position := Z.min (position operation) (strlen content) in
    let length := Z.min (lengthOf operation) (strlen content - position) in
    Ok (slice content 0 position
        ++ sliceFrom content (position + length))%string.

Definition applyOperation (content : string) (operation : TextOperation)
  : result string :=
  match type operation with
  | insert => applyInsert content operation
  | delete => applyDelete content operation
  | otherType => Throw "Unknown operation type"
  end.

Definition transformOperation (operation against : TextOperation)
  : TextOperation :=
  if String.eqb (userId operation) (userId against)
     || negb (String.eqb (documentId operation) (documentId against))
  then operation
  else if timestamp operation >? timestamp against then
    if type_eqb (type against) insert && truthyString (text against) then
      if position against <=? position operation
      then withPosition operation
             (position operation + strlen (textOf against))
      else operation
    else if type_eqb (type against) delete
            && truthyNumber (length against) then
      if position against <? position operation
      then
        let overlap :=
          Z.max 0 (position against + lengthOf against
                   - position operation) in
        withPosition operation
          (position operation - (lengthOf against - overlap))
      else operation
    else operation
  else operation.

End OT.

(** ** The [TextOperation] interface of socket.ts and of both
       EditorContext.tsx files: the one of ot.ts without [version]. *)

Module Wire.

Record TextOperation : Type := mkOp {
  type : OT.OperationType;
  position : Z;
  text : option string;
  length : option Z;
  userId : string;
  documentId : string;
  timestamp : Z
}.

(** The same operation seen through the interface of ot.ts. *)
Definition toOT (v : Z) (operation : TextOperation) : OT.TextOperation :=
  {| OT.type := type operation;
     OT.position := position operation;
     OT.text := text operation;
     OT.length := length operation;
     OT.userId := userId operation;
     OT.documentId := documentId operation;
     OT.timestamp := timestamp operation;
     OT.version := v |}.

End Wire.

(** ** server/src/socket.ts *)

Module Socket.

(** A JavaScript [Set<string>]: its members in insertion order, each
    once.  [Array.from] of the set is the list itself. *)
Abbreviation JSSet := (list string).

(** [s.add(x)] *)
Definition set_add (x : string) (s : JSSet) : JSSet :=
  if bool_decide (x ∈ s) then s else s ++ [x].

(** [s.delete(x)] *)
Definition set_delete (x : string) (s : JSSet) : JSSet :=
  filter (λ y, y ≠ x) s.

(** [s.size] *)
Definition set_size (s : JSSet) : nat := List.length s.

(** Payloads of the events the server emits. *)
Inductive Message : Type :=
| UserJoined (userId : string) (users : list string)
| ActiveUsers (users : list string)
| UserLeft (userId : string) (users : list string)
| DocumentOperation (operation : Wire.TextOperation)
| CursorPosition (userId : string) (position : Z).

(** [socket.to(room).emit(..)] reaches the room without the sender;
    [socket.emit(..)] reaches the sender alone. *)
Inductive Emit : Type :=
| ToRoom (sender room : string) (msg : Message)
| ToSocket (socket : string) (msg : Message).

(** Events a connected socket delivers to its handlers. *)
Inductive ClientEvent : Type :=
| JoinDocument (documentId userId : string)
| DocumentOperationEvent (operation : Wire.TextOperation)
| CursorPositionEvent (documentId userId : string) (position : Z)
| LeaveDocument (documentId userId : string)
| Disconnect.

(** [activeDocuments] is the module-level record of the source, the
    plain object [{}]: [activeDocuments] holds its own properties, and
    [slot] below reads a property as JavaScript does, own properties
    first and then [Object.prototype].  [rooms] is socket.io's own table
    of the rooms each socket is in ([socket.join], [socket.leave]; a
    closed socket is in no room). *)
Record State : Type := mkState {
  activeDocuments : gmap string (list string);
  rooms : gmap string (gset string)
}.

Definition initial : State :=
  {| activeDocuments := ∅; rooms := ∅ |}.

(** The property names every plain object inherits from
    [Object.prototype]. *)
Definition objectPrototypeKeys : list string :=
  ["constructor"; "__defineGetter__"; "__defineSetter__";
   "hasOwnProperty"; "__lookupGetter__"; "__lookupSetter__";
   "isPrototypeOf"; "propertyIsEnumerable"; "toString"; "valueOf";
   "__proto__"; "toLocaleString"]%string.

(** What [activeDocuments[documentId]] evaluates to: [undefined], a set
    the handlers put there, or a value inherited from
    [Object.prototype] (a function, or the prototype itself for
    ["__proto__"]), which is truthy and has no [add] and no [delete]. *)
Inductive Slot : Type :=
| Absent
| Members (s : list string)
| Inherited.

Definition slot (docs : gmap string (list string)) (documentId : string)
  : Slot :=
  match docs !! documentId with
  | Some s => Members s
  | None =>
      if bool_decide (documentId ∈ objectPrototypeKeys)
      then Inherited else Absent
  end.

Definition socketJoin (socket room : string)
    (r : gmap string (gset string)) : gmap string (gset string) :=
  <[socket := {[room]} ∪ default ∅ (r !! socket)]> r.

Definition socketLeave (socket room : string)
    (r : gmap string (gset string)) : gmap string (gset string) :=
  alter (λ rs, rs ∖ {[room]}) socket r.

(** [Array.from(activeDocuments[documentId])] for a tracked document,
    the empty list otherwise. *)
Definition members (docs : gmap string (list string)) (documentId : string)
  : list string :=
  default [] (docs !! documentId).

(** The ['join-document'] handler.  When the property read is an
    inherited one, no set is created and the call of [add] throws,
    before anything is emitted. *)
Definition onJoinDocument (socket documentId userId : string) (st : State)
  : JS.result (State * list Emit) :=
  let rooms1 := socketJoin socket documentId (rooms st) in
  let docs1 :=
    match slot (activeDocuments st) documentId with
    | Absent => <[documentId := []]> (activeDocuments st)
    | _ => activeDocuments st
    end in
  match slot docs1 documentId with
  | Members _ =>
      let docs2 := alter (set_add userId) documentId docs1 in
      let users := members docs2 documentId in
      JS.Ok
        ({| activeDocuments := docs2; rooms := rooms1 |},
         [ToRoom socket documentId (UserJoined userId users);
          ToSocket socket (ActiveUsers users)])
  | _ =>
      JS.Throw
        "TypeError: activeDocuments[documentId].add is not a function"
  end.

(** The ['document-operation'] handler. *)
Definition onDocumentOperation (socket : string)
    (operation : Wire.TextOperation) (st : State) : State * list Emit :=
  (st, [ToRoom socket (Wire.documentId operation)
          (DocumentOperation operation)]).

(** The ['cursor-position'] handler. *)
Definition onCursorPosition (socket documentId userId : string)
    (position : Z) (st : State) : State * list Emit :=
  (st, [ToRoom socket documentId (CursorPosition userId position)]).

(** [handleUserLeaveDocument].  An inherited property passes the [if]
    and the call of [delete] throws. *)
Definition handleUserLeaveDocument (socket documentId userId : string)
    (st : State) : JS.result (State * list Emit) :=
  let rooms1 := socketLeave socket documentId (rooms st) in
  match slot (activeDocuments st) documentId with
  | Members _ =>
      let docs1 :=
        alter (set_delete userId) documentId (activeDocuments st) in
      let users := members docs1 documentId in
      let docs2 :=
        if Nat.eqb (set_size users) 0
        then base.delete documentId docs1
        else docs1 in
      JS.Ok
        ({| activeDocuments := docs2; rooms := rooms1 |},
         [ToRoom socket documentId (UserLeft userId users)])
  | Inherited =>
      JS.Throw
        "TypeError: activeDocuments[documentId].delete is not a function"
  | Absent =>
      JS.Ok ({| activeDocuments := activeDocuments st; rooms := rooms1 |},
             [])
  end.

(** The ['disconnect'] handler: it logs and returns; the socket is
    closed, so socket.io has dropped it from its rooms. *)
Definition onDisconnect (socket : string) (st : State)
  : State * list Emit :=
  ({| activeDocuments := activeDocuments st;
      rooms := base.delete socket (rooms st) |}, []).

(** One event of one socket, dispatched to its handler. *)
Definition handle (socket : string) (ev : ClientEvent) (st : State)
  : JS.result (State * list Emit) :=
  match ev with
  | JoinDocument documentId userId =>
      onJoinDocument socket documentId userId st
  | DocumentOperationEvent operation =>
      JS.Ok (onDocumentOperation socket operation st)
  | CursorPositionEvent documentId userId position =>
      JS.Ok (onCursorPosition socket documentId userId position st)
  | LeaveDocument documentId userId =>
      handleUserLeaveDocument socket documentId userId st
  | Disconnect => JS.Ok (onDisconnect socket st)
  end.

(** The server runs handlers to completion, one event after another.
    Nothing catches what a handler throws: the run ends there. *)
Fixpoint run (trace : list (string * ClientEvent)) (st : State)
  : JS.result State :=
  match trace with
  | [] => JS.Ok st
  | (socket, ev) :: rest =>
      match handle socket ev st with
      | JS.Ok (st1, _) => run rest st1
      | JS.Throw msg => JS.Throw msg
      end
  end.

(** Everything emitted along a trace, in order, up to the end of the
    run. *)
Fixpoint emitted (trace : list (string * ClientEvent)) (st : State)
  : list Emit :=
  match trace with
  | [] => []
  | (socket, ev) :: rest =>
      match handle socket ev st with
      | JS.Ok (st1, out) => out ++ emitted rest st1
      | JS.Throw _ => []
      end
  end.

(** Every tracked document has at least one member. *)
Definition registry_inv (docs : gmap string (list string)) : Prop :=
  ∀ documentId s, docs !! documentId = Some s → s ≠ [].

(** [users] join [documentId] one after another, each on its socket. *)
Definition joinAll (documentId : string) (who : list (string * string))
    (st : State) : JS.result State :=
  run (map (λ su, (su.1, JoinDocument documentId su.2)) who) st.

End Socket.

(** ** client/src/contexts/EditorContext.tsx *)

Module EditorContext.

Record User : Type := mkUser { id : string }.

Section Draft.
(** draft-js: editor and content states, [convertFromRaw(JSON.parse(t))]
    ([None] when either call throws) and
    [EditorState.createWithContent]. *)
Variables EditorState ContentState : Type.
Variable parseRaw : string → option ContentState.
Variable createWithContent : ContentState → EditorState.

(** [applyOperation], as a function of the current [editorState]. *)
Definition applyOperation (user : option User)
    (operation : Wire.TextOperation) (editorState : EditorState)
  : EditorState :=
  if match user with
     | Some u => String.eqb (Wire.userId operation) (id u)
     | None => false
     end
  then editorState
  else if OT.type_eqb (Wire.type operation) OT.insert
          && JS.truthyString (Wire.text operation) then
    match parseRaw (default EmptyString (Wire.text operation)) with
    | Some contentState => createWithContent contentState
    | None => editorState
    end
  else editorState.
End Draft.

End EditorContext.

(** ** mobile/src/contexts/EditorContext.tsx *)

Module MobileEditorContext.

Record User : Type := mkUser { id : string }.

(** [applyOperation], as a function of the current [documentContent]. *)
Definition applyOperation (user : option User)
    (operation : Wire.TextOperation) (documentContent : string) : string :=
  if match user with
     | Some u => String.eqb (Wire.userId operation) (id u)
     | None => false
     end
  then documentContent
  else if OT.type_eqb (Wire.type operation) OT.insert
          && JS.truthyString (Wire.text operation) then
    default EmptyString (Wire.text operation)
  else documentContent.

End MobileEditorContext.

(** ** The edit applier as section 4.4 words it *)

Module Spec.

(** Clamp [x] to the range [lo .. hi]. *)
Definition clamp (lo hi x : Z) : Z := Z.max lo (Z.min x hi).

(** The first [n] code units of [s]. *)
Fixpoint prefix (n : nat) (s : string) : string :=
  match n, s with
  | S n', String c s' => String c (prefix n' s')
  | _, _ => EmptyString
  end.

(** What is left of [s] after its first [n] code units. *)
Fixpoint suffix (n : nat) (s : string) : string :=
  match n, s with
  | S n', String c s' => suffix n' s'
  | _, _ => s
  end.

(** [buffer] with [t] spliced in at offset [p]. *)
Definition spliceAt (buffer : string) (p : Z) (t : string) : string :=
  (prefix (Z.to_nat p) buffer ++ t ++ suffix (Z.to_nat p) buffer)%string.

(** [buffer] without the [n] code units that start at offset [p]. *)
Definition removeSpan (buffer : string) (p n : Z) : string :=
  (prefix (Z.to_nat p) buffer ++ suffix (Z.to_nat (p + n)) buffer)%string.

(** Insert as the spec has it: position clamped to [0 .. len]. *)
Definition insertAt (buffer : string) (position : Z) (t : string) : string :=
  spliceAt buffer (clamp 0 (JS.strlen buffer) position) t.

(** Delete as the spec has it: position clamped to [0 .. len], length cut
    to what is left after the position. *)
Definition deleteAt (buffer : string) (position length : Z) : string :=
  let p := clamp 0 (JS.strlen buffer) position in
  removeSpan buffer p (Z.min length (JS.strlen buffer - p)).

End Spec.

(** ** The registry as a map, and read off a trace *)

Module Presence.

(** Whether [userId] is listed for [documentId] once the trace has run,
    told from the events alone: the last ['join-document'] or
    ['leave-document'] of that pair decides, whichever socket sent it;
    [before] is the answer for the state the trace starts in. *)
Fixpoint listed (documentId userId : string)
    (trace : list (string * Socket.ClientEvent)) (before : bool) : bool :=
  match trace with
  | [] => before
  | (_, Socket.JoinDocument d u) :: rest =>
      listed documentId userId rest
        (if String.eqb d documentId && String.eqb u userId
         then true else before)
  | (_, Socket.LeaveDocument d u) :: rest =>
      listed documentId userId rest
        (if String.eqb d documentId && String.eqb u userId
         then false else before)
  | _ :: rest => listed documentId userId rest before
  end.

(** Nobody is listed twice for a document. *)
Definition members_NoDup (st : Socket.State) : Prop :=
  ∀ d, NoDup (Socket.members (Socket.activeDocuments st) d).

(** The registry after a join that does not throw. *)
Definition join (documentId userId : string)
    (docs : gmap string (list string)) : gmap string (list string) :=
  <[documentId := Socket.set_add userId (Socket.members docs documentId)]>
    docs.

(** The registry after a leave that does not throw. *)
Definition leave (documentId userId : string)
    (docs : gmap string (list string)) : gmap string (list string) :=
  match docs !! documentId with
  | Some s =>
      match Socket.set_delete userId s with
      | [] => base.delete documentId docs
      | s' => <[documentId := s']> docs
      end
  | None => docs
  end.




(** What the handlers promise about a user list they send: the one who
    joined is on it, the one who left is not, and nobody is on it
    twice. *)
Definition wellFormed (e : Socket.Emit) : Prop :=
  match e with
  | Socket.ToRoom _ _ (Socket.UserJoined u users) =>
      (u ∈ users) ∧ NoDup users
  | Socket.ToRoom _ _ (Socket.UserLeft u users) =>
      (u ∉ users) ∧ NoDup users
  | Socket.ToSocket _ (Socket.ActiveUsers users) => NoDup users
  | _ => True
  end.

(** The user lists a message carries. *)
Definition usersOf (e : Socket.Emit) : option (list string) :=
  match e with
  | Socket.ToRoom _ _ (Socket.UserJoined _ users)
  | Socket.ToRoom _ _ (Socket.UserLeft _ users)
  | Socket.ToRoom _ _ (Socket.ActiveUsers users)
  | Socket.ToSocket _ (Socket.UserJoined _ users)
  | Socket.ToSocket _ (Socket.UserLeft _ users)
  | Socket.ToSocket _ (Socket.ActiveUsers users) => Some users
  | _ => None
  end.

End Presence.

(** ** mobile/src/contexts/EditorContext.tsx: the provider's state, its
       socket listeners and the functions it hands out.  The listeners
       and [joinDocument], [leaveDocument], [sendCursorPosition] of the
       web client read the same. *)

Module MobileStore.

Record CursorPosition : Type := mkCursor {
  userId : string;
  position : Z;
  username : option string
}.

(** The [useState] cells of [EditorProvider]. *)
Record State : Type := mkState {
  documentContent : string;
  currentDocumentId : option string;
  activeUsers : list string;
  cursorPositions : list CursorPosition;
  isConnectedToDocument : bool
}.

(** What the hooks give in the current render: [useAuth().user] and
    whether [useSocket().socket] is there or [null]. *)
Record Env : Type := mkEnv {
  user : option MobileEditorContext.User;
  socket : bool
}.

(** [prev.findIndex(cursor => cursor.userId === userId)]; [None] is -1. *)
Fixpoint findIndex (uid : string) (prev : list CursorPosition)
  : option nat :=
  match prev with
  | [] => None
  | cursor :: rest =>
      if String.eqb (userId cursor) uid then Some 0%nat
      else S <$> findIndex uid rest
  end.

(** The updater of [handleCursorPosition]. *)
Definition handleCursorPosition (uid : string) (pos : Z)
    (prev : list CursorPosition) : list CursorPosition :=
  match findIndex uid prev with
  | Some existingIndex =>
      alter (λ cursor,
               {| userId := userId cursor;
                  position := pos;
                  username := username cursor |})
        existingIndex prev
  | None => prev ++ [{| userId := uid; position := pos; username := None |}]
  end.

(** The updater of [handleUserLeft]. *)
Definition removeCursor (uid : string) (prev : list CursorPosition)
  : list CursorPosition :=
  filter (λ cursor, userId cursor ≠ uid) prev.

(** The five socket listeners, by the message that arrives.  An effect
    whose only dependency is [socket] registers them, so they keep the
    [applyOperation] of the render in which the socket last changed, and
    with it the [user] that render saw: [listenerUser] is that user,
    which need not be the user of the current render. *)
Definition receive (listenerUser : option MobileEditorContext.User)
    (msg : Socket.Message) (st : State) : State :=
  match msg with
  | Socket.UserJoined _ users
  | Socket.ActiveUsers users =>
      {| documentContent := documentContent st;
         currentDocumentId := currentDocumentId st;
         activeUsers := users;
         cursorPositions := cursorPositions st;
         isConnectedToDocument := isConnectedToDocument st |}
  | Socket.UserLeft uid users =>
      {| documentContent := documentContent st;
         currentDocumentId := currentDocumentId st;
         activeUsers := users;
         cursorPositions := removeCursor uid (cursorPositions st);
         isConnectedToDocument := isConnectedToDocument st |}
  | Socket.DocumentOperation operation =>
      {| documentContent :=
           MobileEditorContext.applyOperation listenerUser operation
             (documentContent st);
         currentDocumentId := currentDocumentId st;
         activeUsers := activeUsers st;
         cursorPositions := cursorPositions st;
         isConnectedToDocument := isConnectedToDocument st |}
  | Socket.CursorPosition uid pos =>
      {| documentContent := documentContent st;
         currentDocumentId := currentDocumentId st;
         activeUsers := activeUsers st;
         cursorPositions := handleCursorPosition uid pos (cursorPositions st);
         isConnectedToDocument := isConnectedToDocument st |}
  end.


Definition leaveDocument (env : Env) (st : State)
  : State * list Socket.ClientEvent :=
  match socket env, user env with
  | true, Some u =>
      if JS.truthyString (currentDocumentId st) then
        ({| documentContent := documentContent st;
            currentDocumentId := None;
            activeUsers := [];
            cursorPositions := [];
            isConnectedToDocument := false |},
         [Socket.LeaveDocument
            (default EmptyString (currentDocumentId st))
            (MobileEditorContext.id u)])
      else (st, [])
  | _, _ => (st, [])
  end.

(** [now] is what [Date.now()] returns. *)
Definition updateContent (env : Env) (newContent : string) (now : Z)
    (st : State) : State * list Socket.ClientEvent :=
  ({| documentContent := newContent;
      currentDocumentId := currentDocumentId st;
      activeUsers := activeUsers st;
      cursorPositions := cursorPositions st;
      isConnectedToDocument := isConnectedToDocument st |},
   match user env with
   | Some u =>
       if JS.truthyString (currentDocumentId st) && socket env then
         [Socket.DocumentOperationEvent
            {| Wire.type := OT.insert;
               Wire.position := 0;
               Wire.text := Some newContent;
               Wire.length := None;
               Wire.userId := MobileEditorContext.id u;
               Wire.documentId :=
                 default EmptyString (currentDocumentId st);
               Wire.timestamp := now |}]
       else []
   | None => []
   end).

Definition sendCursorPosition (env : Env) (pos : Z) (st : State)
  : list Socket.ClientEvent :=
  match socket env, user env with
  | true, Some u =>
      if JS.truthyString (currentDocumentId st) then
        [Socket.CursorPositionEvent
           (default EmptyString (currentDocumentId st))
           (MobileEditorContext.id u) pos]
      else []
  | _, _ => []
  end.


End MobileStore.

(** * Properties of the edit applier and of the transform *)

(** ** Strings *)

Lemma substring_0_prefix (m : nat) (s : string) :
  String.substring 0 m s = Spec.prefix m s.
Proof.
  revert s; induction m as [|m IH]; intros [|c s]; simpl; try reflexivity.
  now rewrite IH.
Qed.

Lemma substring_all (s : string) :
  String.substring 0 (String.length s) s = s.
Proof. induction s as [|c s IH]; simpl; [reflexivity | now rewrite IH]. Qed.

Lemma substring_suffix (n : nat) (s : string) :
  (n <= String.length s)%nat →
  String.substring n (String.length s - n) s = Spec.suffix n s.
Proof.
  revert s; induction n as [|n IH]; intros s Hn.
  - rewrite Nat.sub_0_r, substring_all. now destruct s.
  - destruct s as [|c s]; simpl in *; [lia |]. apply IH. lia.
Qed.

(** For an offset inside the string, [slice(0, p)] is the prefix and
    [slice(p)] the suffix. *)
Lemma slice_0_prefix (s : string) (p : Z) :
  0 <= p <= JS.strlen s →
  JS.slice s 0 p = Spec.prefix (Z.to_nat p) s.
Proof.
  intros Hp. unfold JS.slice, JS.relIndex.
  replace (0 <? 0) with false by reflexivity.
  destruct (p <? 0) eqn:E; [apply Z.ltb_lt in E; lia |].
  rewrite (Z.min_l 0) by (unfold JS.strlen; lia).
  rewrite (Z.min_l p) by lia.
  rewrite Z.sub_0_r, Z.max_l by lia.
  apply substring_0_prefix.
Qed.

Lemma sliceFrom_suffix (s : string) (p : Z) :
  0 <= p <= JS.strlen s →
  JS.sliceFrom s p = Spec.suffix (Z.to_nat p) s.
Proof.
  intros Hp. unfold JS.sliceFrom, JS.relIndex.
  destruct (p <? 0) eqn:E; [apply Z.ltb_lt in E; lia |].
  rewrite (Z.min_l p) by lia.
  rewrite Z.max_l by lia.
  unfold JS.strlen in *.
  replace (Z.to_nat (Z.of_nat (String.length s) - p))
    with (String.length s - Z.to_nat p)%nat by lia.
  apply substring_suffix. lia.
Qed.

Lemma truthyString_true (t : option string) :
  JS.truthyString t = true ↔ ∃ s, t = Some s ∧ s ≠ EmptyString.
Proof.
  destruct t as [s|]; simpl.
  - rewrite negb_true_iff. split.
    + intros H. exists s. split; [reflexivity |].
      now apply String.eqb_neq.
    + intros (s' & [= <-] & Hne). now apply String.eqb_neq.
  - split; [discriminate | intros (s & [=] & _)].
Qed.

Lemma truthyNumber_true (n : option Z) :
  JS.truthyNumber n = true ↔ ∃ z, n = Some z ∧ z ≠ 0.
Proof.
  destruct n as [z|]; simpl.
  - rewrite negb_true_iff, Z.eqb_neq. split.
    + intros H. now exists z.
    + now intros (z' & [= <-] & Hne).
  - split; [discriminate | intros (z & [=] & _)].
Qed.

Lemma type_eqb_eq (a b : OT.OperationType) :
  OT.type_eqb a b = true ↔ a = b.
Proof. destruct a, b; simpl; split; congruence. Qed.

(** ** The transform *)

(** Writing back the position an operation already has changes nothing. *)
Lemma withPosition_same (operation : OT.TextOperation) (p : Z) :
  p = OT.position operation → OT.withPosition operation p = operation.
Proof. intros ->. now destruct operation. Qed.

(** The guard of [transformOperation] lets through exactly the pairs of
    different users on one document. *)
Lemma transform_guard (operation against : OT.TextOperation) :
  OT.userId operation ≠ OT.userId against →
  OT.documentId operation = OT.documentId against →
  String.eqb (OT.userId operation) (OT.userId against)
  || negb (String.eqb (OT.documentId operation) (OT.documentId against))
  = false.
Proof.
  intros Hu Hd. apply orb_false_iff. split.
  - now apply String.eqb_neq.
  - apply negb_false_iff. now apply String.eqb_eq.
Qed.

(** C1: against an earlier insert of another user on the same document,
    the pending position moves forward by the length of the inserted text
    when the insert is at or before it, and stays otherwise; an insert of
    "abc" at 5 moves a pending position 5 to 8. *)
Theorem transform_against_insert (pending applied : OT.TextOperation) :
  OT.userId pending ≠ OT.userId applied →
  OT.documentId pending = OT.documentId applied →
  OT.timestamp pending > OT.timestamp applied →
  OT.type applied = OT.insert →
  (OT.position applied <= OT.position pending →
     OT.transformOperation pending applied
     = OT.withPosition pending
         (OT.position pending + JS.strlen (OT.textOf applied)))
  ∧ (OT.position applied > OT.position pending →
     OT.transformOperation pending applied = pending)
  ∧ (OT.text applied = Some "abc"%string →
     OT.position applied = 5 → OT.position pending = 5 →
     OT.position (OT.transformOperation pending applied) = 8).
Proof.
  intros Hu Hd Ht Hty.
  unfold OT.transformOperation.
  rewrite (transform_guard _ _ Hu Hd), Hty.
  replace (OT.timestamp pending >? OT.timestamp applied) with true
    by (symmetry; apply Z.gtb_lt; lia).
  cbn [OT.type_eqb andb].
  split; [| split].
  - intros Hle.
    replace (OT.position applied <=? OT.position pending) with true
      by (symmetry; apply Z.leb_le; lia).
    destruct (JS.truthyString (OT.text applied)) eqn:Etxt; [reflexivity |].
    symmetry. apply withPosition_same.
    unfold OT.textOf. destruct (OT.text applied) as [t|]; simpl in *.
    + apply negb_false_iff, String.eqb_eq in Etxt. subst t.
      unfold JS.strlen. simpl. lia.
    + unfold JS.strlen. simpl. lia.
  - intros Hgt.
    replace (OT.position applied <=? OT.position pending) with false
      by (symmetry; apply Z.leb_gt; lia).
    now destruct (JS.truthyString (OT.text applied)).
  - intros Htxt Hpa Hpp. unfold OT.textOf. rewrite Htxt, Hpa, Hpp.
    reflexivity.
Qed.

(** C2: against an earlier delete of another user on the same document,
    the pending position moves back by the part of the deleted span that
    lies before it when the delete starts before it, and stays otherwise;
    a delete of 5 at 2 moves a pending position 10 to 5 and 4 to 2. *)
Theorem transform_against_delete (pending applied : OT.TextOperation) :
  OT.userId pending ≠ OT.userId applied →
  OT.documentId pending = OT.documentId applied →
  OT.timestamp pending > OT.timestamp applied →
  OT.type applied = OT.delete →
  (OT.position applied < OT.position pending →
     let overlap :=
       Z.max 0 (OT.position applied + OT.lengthOf applied
                - OT.position pending) in
     OT.transformOperation pending applied
     = OT.withPosition pending
         (OT.position pending - (OT.lengthOf applied - overlap)))
  ∧ (OT.position applied >= OT.position pending →
     OT.transformOperation pending applied = pending)
  ∧ (OT.length applied = Some 5 → OT.position applied = 2 →
     (OT.position pending = 10 →
        OT.position (OT.transformOperation pending applied) = 5)
     ∧ (OT.position pending = 4 →
        OT.position (OT.transformOperation pending applied) = 2)).
Proof.
  intros Hu Hd Ht Hty.
  unfold OT.transformOperation.
  rewrite (transform_guard _ _ Hu Hd), Hty.
  replace (OT.timestamp pending >? OT.timestamp applied) with true
    by (symmetry; apply Z.gtb_lt; lia).
  cbn [OT.type_eqb andb].
  split; [| split].
  - intros Hlt. cbv zeta.
    replace (OT.position applied <? OT.position pending) with true
      by (symmetry; apply Z.ltb_lt; lia).
    destruct (JS.truthyNumber (OT.length applied)) eqn:Elen; [reflexivity |].
    symmetry. apply withPosition_same.
    assert (OT.lengthOf applied = 0) as H0.
    { unfold OT.lengthOf. destruct (OT.length applied) as [n|]; simpl in *.
      - apply negb_false_iff, Z.eqb_eq in Elen. exact Elen.
      - reflexivity. }
    rewrite H0. lia.
  - intros Hge.
    replace (OT.position applied <? OT.position pending) with false
      by (symmetry; apply Z.ltb_ge; lia).
    now destruct (JS.truthyNumber (OT.length applied)).
  - intros Hlen Hpa. unfold OT.lengthOf. rewrite Hlen, Hpa.
    split; intros ->; reflexivity.
Qed.

(** C3: [transformOperation] returns the pending operation as it is when
    both operations have one author, or are on different documents, or
    the applied one is not strictly earlier. *)
Theorem transform_identity (pending applied : OT.TextOperation) :
  OT.userId pending = OT.userId applied
  ∨ OT.documentId pending ≠ OT.documentId applied
  ∨ OT.timestamp applied >= OT.timestamp pending →
  OT.transformOperation pending applied = pending.
Proof.
  intros H. unfold OT.transformOperation.
  destruct (String.eqb (OT.userId pending) (OT.userId applied)) eqn:Eu;
    [reflexivity |].
  destruct (String.eqb (OT.documentId pending) (OT.documentId applied))
    eqn:Ed; [| reflexivity].
  apply String.eqb_neq in Eu. apply String.eqb_eq in Ed. simpl.
  destruct H as [H | [H | H]]; [contradiction | contradiction |].
  replace (OT.timestamp pending >? OT.timestamp applied) with false
    by (symmetry; rewrite Z.gtb_ltb; apply Z.ltb_ge; lia).
  reflexivity.
Qed.

(** C10: whatever the two operations are, the transformed operation has
    the type, text, length, author, document, timestamp and version of
    the pending one; the position alone may differ. *)
Theorem transform_frame (pending applied : OT.TextOperation) :
  let r := OT.transformOperation pending applied in
  OT.type r = OT.type pending
  ∧ OT.text r = OT.text pending
  ∧ OT.length r = OT.length pending
  ∧ OT.userId r = OT.userId pending
  ∧ OT.documentId r = OT.documentId pending
  ∧ OT.timestamp r = OT.timestamp pending
  ∧ OT.version r = OT.version pending.
Proof.
  unfold OT.transformOperation.
  repeat match goal with
         | |- context [if ?b then _ else _] => destruct b
         end; cbn; repeat split.
Qed.

Lemma transform_against_insert_witness :
  OT.transformOperation
    (OT.mkOp OT.insert 5 (Some "Y"%string) None "bob" "doc" 2 0)
    (OT.mkOp OT.insert 5 (Some "abc"%string) None "alice" "doc" 1 0)
  = OT.mkOp OT.insert 8 (Some "Y"%string) None "bob" "doc" 2 0.
Proof.
  destruct (transform_against_insert
              (OT.mkOp OT.insert 5 (Some "Y"%string) None "bob" "doc" 2 0)
              (OT.mkOp OT.insert 5 (Some "abc"%string) None "alice" "doc" 1 0))
    as (Hshift & _ & _); simpl.
  - discriminate.
  - reflexivity.
  - lia.
  - reflexivity.
  - simpl in Hshift. rewrite Hshift by lia. reflexivity.
Defined.

Lemma transform_against_delete_witness :
  OT.transformOperation
    (OT.mkOp OT.insert 4 (Some "Y"%string) None "bob" "doc" 2 0)
    (OT.mkOp OT.delete 2 None (Some 5) "alice" "doc" 1 0)
  = OT.mkOp OT.insert 2 (Some "Y"%string) None "bob" "doc" 2 0.
Proof.
  destruct (transform_against_delete
              (OT.mkOp OT.insert 4 (Some "Y"%string) None "bob" "doc" 2 0)
              (OT.mkOp OT.delete 2 None (Some 5) "alice" "doc" 1 0))
    as (Hshift & _ & _); simpl.
  - discriminate.
  - reflexivity.
  - lia.
  - reflexivity.
  - simpl in Hshift. rewrite Hshift by lia. reflexivity.
Defined.

Lemma transform_identity_witness :
  OT.transformOperation
    (OT.mkOp OT.insert 9 (Some "Y"%string) None "bob" "doc" 1 0)
    (OT.mkOp OT.insert 5 (Some "abc"%string) None "alice" "doc" 1 0)
  = OT.mkOp OT.insert 9 (Some "Y"%string) None "bob" "doc" 1 0.
Proof.
  apply (transform_identity
           (OT.mkOp OT.insert 9 (Some "Y"%string) None "bob" "doc" 1 0)
           (OT.mkOp OT.insert 5 (Some "abc"%string) None "alice" "doc" 1 0)).
  right. right. simpl. lia.
Defined.

(** ** The edit applier *)

(** [applyInsert] throws exactly for an operation that is not an insert
    or carries no text. *)
Lemma applyInsert_throws_iff (content : string) (operation : OT.TextOperation) :
  OT.applyInsert content operation = JS.Throw "Invalid insert operation"
  ↔ OT.type operation ≠ OT.insert
    ∨ OT.text operation = None
    ∨ OT.text operation = Some EmptyString.
Proof.
  unfold OT.applyInsert.
  destruct (OT.type_eqb (OT.type operation) OT.insert) eqn:Ety.
  - apply type_eqb_eq in Ety.
    destruct (OT.text operation) as [[|c t]|]; simpl; split;
      try discriminate; try (intros _; tauto).
    intros [H | [H | H]]; [contradiction | discriminate | discriminate].
  - simpl. split; [| reflexivity]. intros _. left.
    intros H. apply type_eqb_eq in H. congruence.
Qed.

(** Any other call of [applyInsert] returns a buffer. *)
Lemma applyInsert_returns (content : string) (operation : OT.TextOperation) :
  OT.type operation = OT.insert →
  JS.truthyString (OT.text operation) = true →
  ∃ content', OT.applyInsert content operation = JS.Ok content'.
Proof.
  intros Hty Htxt. unfold OT.applyInsert. rewrite Hty, Htxt. simpl. eauto.
Qed.

(** For a position that is not negative, [applyInsert] splices the text
    in at the position clamped to [0 .. len]. *)
Lemma applyInsert_nonneg (content t : string) (operation : OT.TextOperation) :
  OT.type operation = OT.insert →
  OT.text operation = Some t → t ≠ EmptyString →
  0 <= OT.position operation →
  OT.applyInsert content operation
  = JS.Ok (Spec.insertAt content (OT.position operation) t).
Proof.
  intros Hty Htxt Hne Hpos. unfold OT.applyInsert, OT.textOf.
  rewrite Hty, Htxt. simpl.
  replace (String.eqb t "") with false
    by (symmetry; now apply String.eqb_neq).
  simpl. f_equal. unfold Spec.insertAt, Spec.spliceAt, Spec.clamp.
  assert (0 <= JS.strlen content) by (unfold JS.strlen; lia).
  rewrite (Z.max_r 0) by lia.
  rewrite slice_0_prefix, sliceFrom_suffix by lia. reflexivity.
Qed.

(** [applyDelete] throws exactly for an operation that is not a delete
    or whose length is missing or zero. *)
Lemma applyDelete_throws_iff (content : string) (operation : OT.TextOperation) :
  OT.applyDelete content operation = JS.Throw "Invalid delete operation"
  ↔ OT.type operation ≠ OT.delete
    ∨ OT.length operation = None
    ∨ OT.length operation = Some 0.
Proof.
  unfold OT.applyDelete.
  destruct (OT.type_eqb (OT.type operation) OT.delete) eqn:Ety.
  - apply type_eqb_eq in Ety.
    destruct (OT.length operation) as [[|n|n]|]; simpl; split;
      try discriminate; try (intros _; tauto).
    + intros [H | [H | H]]; [contradiction | discriminate | discriminate].
    + intros [H | [H | H]]; [contradiction | discriminate | discriminate].
  - simpl. split; [| reflexivity]. intros _. left.
    intros H. apply type_eqb_eq in H. congruence.
Qed.

(** For a position that is not negative and a positive length,
    [applyDelete] removes the span, position clamped to [0 .. len] and
    length cut to what is left. *)
Lemma applyDelete_wellformed (content : string) (n : Z)
    (operation : OT.TextOperation) :
  OT.type operation = OT.delete →
  OT.length operation = Some n → 0 < n →
  0 <= OT.position operation →
  OT.applyDelete content operation
  = JS.Ok (Spec.deleteAt content (OT.position operation) n).
Proof.
  intros Hty Hlen Hn Hpos. unfold OT.applyDelete, OT.lengthOf.
  rewrite Hty, Hlen. simpl.
  replace (n =? 0) with false by (symmetry; apply Z.eqb_neq; lia).
  simpl. f_equal. unfold Spec.deleteAt, Spec.removeSpan, Spec.clamp.
  assert (0 <= JS.strlen content) by (unfold JS.strlen; lia).
  rewrite (Z.max_r 0) by lia.
  rewrite slice_0_prefix, sliceFrom_suffix by lia. reflexivity.
Qed.

(** C4: [applyInsert] does not clamp a negative position to 0: the
    position goes to [slice] as it is and counts from the end of the
    buffer.  Inserting "!" at -2 in "hello" gives "hel!lo", where a
    position clamped to [0 .. 5] gives "!hello"; at position 10 the clamp
    to 5 does give "hello!". *)
Theorem applyInsert_negative_position :
  OT.applyInsert "hello"
    (OT.mkOp OT.insert (-2) (Some "!"%string) None "alice" "doc" 1 0)
  = JS.Ok "hel!lo"%string
  ∧ Spec.insertAt "hello" (-2) "!" = "!hello"%string
  ∧ OT.applyInsert "hello"
      (OT.mkOp OT.insert 10 (Some "!"%string) None "alice" "doc" 1 0)
    = JS.Ok "hello!"%string.
Proof. repeat split. Qed.

(** C5: [applyDelete] accepts a negative length: its guard rejects a
    missing or zero length only.  Deleting -1 at 2 in "hello" throws
    nothing and returns the longer buffer "heello"; with length 100 the
    length is cut to 3 and the result is "he". *)
Theorem applyDelete_negative_length :
  OT.applyDelete "hello"
    (OT.mkOp OT.delete 2 None (Some (-1)) "alice" "doc" 1 0)
  = JS.Ok "heello"%string
  ∧ OT.applyDelete "hello"
      (OT.mkOp OT.delete 2 None (Some 100) "alice" "doc" 1 0)
    = JS.Ok "he"%string.
Proof. repeat split. Qed.

(** * Properties of the presence registry *)

(** ** Sets *)

Lemma set_add_elem (x y : string) (s : list string) :
  y ∈ Socket.set_add x s ↔ y = x ∨ y ∈ s.
Proof.
  unfold Socket.set_add. case_bool_decide as Hx.
  - split; [tauto | intros [-> | H]; assumption].
  - rewrite elem_of_app, list_elem_of_singleton. tauto.
Qed.

Lemma set_add_nonempty (x : string) (s : list string) :
  Socket.set_add x s ≠ [].
Proof.
  intros H. assert (x ∈ Socket.set_add x s) as Hx
    by (apply set_add_elem; now left).
  rewrite H in Hx. now apply not_elem_of_nil in Hx.
Qed.

Lemma set_add_idem (x : string) (s : list string) :
  Socket.set_add x (Socket.set_add x s) = Socket.set_add x s.
Proof.
  unfold Socket.set_add at 1. case_bool_decide as Hx; [reflexivity |].
  exfalso. apply Hx, set_add_elem. now left.
Qed.

Lemma set_add_NoDup (x : string) (s : list string) :
  NoDup s → NoDup (Socket.set_add x s).
Proof.
  intros Hs. unfold Socket.set_add. case_bool_decide as Hx; [assumption |].
  apply NoDup_app. repeat split; [assumption | | apply NoDup_singleton].
  intros y Hy ->%list_elem_of_singleton. contradiction.
Qed.

Lemma set_delete_elem (x y : string) (s : list string) :
  y ∈ Socket.set_delete x s ↔ y ≠ x ∧ y ∈ s.
Proof. unfold Socket.set_delete. rewrite list_elem_of_filter. tauto. Qed.

Lemma set_delete_absent (x : string) (s : list string) :
  x ∉ s → Socket.set_delete x s = s.
Proof.
  intros Hx. unfold Socket.set_delete.
  induction s as [|y s IH]; [reflexivity |].
  apply not_elem_of_cons in Hx as [Hne Hs].
  rewrite filter_cons_True by congruence. now rewrite IH.
Qed.

Lemma set_delete_add_fresh (x : string) :
  Socket.set_delete x (Socket.set_add x []) = [].
Proof.
  unfold Socket.set_delete, Socket.set_add. simpl.
  rewrite filter_cons_False by (intros H; now apply H). reflexivity.
Qed.

(** Adding the members of a duplicate-free list one by one, none of them
    in the set yet, appends them in order. *)
Lemma foldl_set_add_fresh (us s : list string) :
  NoDup (s ++ us) →
  foldl (λ acc u, Socket.set_add u acc) s us = s ++ us.
Proof.
  revert s; induction us as [|u us IH]; intros s Hnd; simpl.
  - now rewrite app_nil_r.
  - assert (u ∉ s) as Hu.
    { apply NoDup_app in Hnd as (_ & Hdisj & _).
      intros Hin. apply (Hdisj u Hin). now left. }
    unfold Socket.set_add at 2. rewrite bool_decide_eq_false_2 by assumption.
    rewrite IH; rewrite <- app_assoc; [reflexivity | exact Hnd].
Qed.

(** ** Handlers *)

Lemma alter_lookup_insert (m : gmap string (list string)) (i : string)
    (f : list string → list string) (x : list string) :
  m !! i = Some x → alter f i m = <[i := f x]> m.
Proof.
  intros H. rewrite <- (insert_id m i x) at 1 by assumption.
  apply alter_insert_eq.
Qed.

(** A property is inherited exactly when its name is one of
    [Object.prototype] and the registry has no own property of that
    name. *)
Lemma slot_Inherited (docs : gmap string (list string)) (d : string) :
  Socket.slot docs d = Socket.Inherited
  ↔ docs !! d = None ∧ d ∈ Socket.objectPrototypeKeys.
Proof.
  unfold Socket.slot. destruct (docs !! d) as [s|].
  - split; [discriminate | intros [H _]; discriminate H].
  - case_bool_decide as Hk.
    + split; [intros _; split; [reflexivity | assumption] | reflexivity].
    + split; [discriminate | intros [_ H]; contradiction].
Qed.

Lemma slot_ordinary (docs : gmap string (list string)) (d : string) :
  d ∉ Socket.objectPrototypeKeys → Socket.slot docs d ≠ Socket.Inherited.
Proof. intros Hk H. apply slot_Inherited in H as [_ H]. contradiction. Qed.

(** What ['join-document'] does when the property it reads is not an
    inherited one. *)
Lemma join_ok (socket documentId userId : string) (st : Socket.State) :
  Socket.slot (Socket.activeDocuments st) documentId ≠ Socket.Inherited →
  Socket.onJoinDocument socket documentId userId st
  = JS.Ok
      ({| Socket.activeDocuments :=
            Presence.join documentId userId (Socket.activeDocuments st);
          Socket.rooms :=
            Socket.socketJoin socket documentId (Socket.rooms st) |},
       [Socket.ToRoom socket documentId
          (Socket.UserJoined userId
             (Socket.set_add userId
                (Socket.members (Socket.activeDocuments st) documentId)));
        Socket.ToSocket socket
          (Socket.ActiveUsers
             (Socket.set_add userId
                (Socket.members (Socket.activeDocuments st) documentId)))]).
Proof.
  intros Hs. unfold Socket.onJoinDocument, Presence.join.
  unfold Socket.slot in *. unfold Socket.members at 3 4 5.
  destruct (Socket.activeDocuments st !! documentId) as [s|] eqn:E.
  - rewrite E. cbn [default from_option id].
    rewrite (alter_lookup_insert _ _ _ _ E).
    unfold Socket.members. now rewrite lookup_insert_eq.
  - case_bool_decide as Hk; [contradiction |].
    rewrite lookup_insert_eq. cbn [default from_option id].
    rewrite alter_insert_eq.
    unfold Socket.members. now rewrite lookup_insert_eq.
Qed.

(** What it does when the property is inherited. *)
Lemma join_throws (socket documentId userId : string) (st : Socket.State) :
  Socket.slot (Socket.activeDocuments st) documentId = Socket.Inherited →
  Socket.onJoinDocument socket documentId userId st
  = JS.Throw "TypeError: activeDocuments[documentId].add is not a function".
Proof.
  intros Hs. unfold Socket.onJoinDocument. now rewrite Hs, Hs.
Qed.

(** What [handleUserLeaveDocument] does when the property it reads is
    not an inherited one. *)
Lemma leave_ok (socket documentId userId : string) (st : Socket.State) :
  Socket.slot (Socket.activeDocuments st) documentId ≠ Socket.Inherited →
  Socket.handleUserLeaveDocument socket documentId userId st
  = JS.Ok
      ({| Socket.activeDocuments :=
            Presence.leave documentId userId (Socket.activeDocuments st);
          Socket.rooms :=
            Socket.socketLeave socket documentId (Socket.rooms st) |},
       match Socket.activeDocuments st !! documentId with
       | Some s =>
           [Socket.ToRoom socket documentId
              (Socket.UserLeft userId (Socket.set_delete userId s))]
       | None => []
       end).
Proof.
  intros Hs. unfold Socket.handleUserLeaveDocument, Presence.leave.
  unfold Socket.slot in *.
  destruct (Socket.activeDocuments st !! documentId) as [s|] eqn:E.
  - unfold Socket.members. rewrite lookup_alter_eq, E.
    cbn [fmap option_fmap option_map default from_option id].
    destruct (Socket.set_delete userId s) as [|y s'] eqn:Ed;
      cbn [Socket.set_size List.length Nat.eqb].
    + now rewrite delete_alter_eq.
    + now rewrite (alter_lookup_insert _ _ _ _ E), Ed.
  - case_bool_decide as Hk; [contradiction | reflexivity].
Qed.

Lemma leave_throws (socket documentId userId : string) (st : Socket.State) :
  Socket.slot (Socket.activeDocuments st) documentId = Socket.Inherited →
  Socket.handleUserLeaveDocument socket documentId userId st
  = JS.Throw
      "TypeError: activeDocuments[documentId].delete is not a function".
Proof.
  intros Hs. unfold Socket.handleUserLeaveDocument. now rewrite Hs.
Qed.

(** The registry after any handler that returns. *)
Lemma handle_registry (socket : string) (ev : Socket.ClientEvent)
    (st st1 : Socket.State) (out : list Socket.Emit) :
  Socket.handle socket ev st = JS.Ok (st1, out) →
  Socket.activeDocuments st1
  = match ev with
    | Socket.JoinDocument d u =>
        Presence.join d u (Socket.activeDocuments st)
    | Socket.LeaveDocument d u =>
        Presence.leave d u (Socket.activeDocuments st)
    | _ => Socket.activeDocuments st
    end.
Proof.
  destruct ev as [d u | op | d u p | d u |]; cbn [Socket.handle].
  - destruct (Socket.slot (Socket.activeDocuments st) d) eqn:Es.
    + rewrite join_ok by (rewrite Es; discriminate). now intros [= <- _].
    + rewrite join_ok by (rewrite Es; discriminate). now intros [= <- _].
    + now rewrite join_throws.
  - now intros [= <- _].
  - now intros [= <- _].
  - destruct (Socket.slot (Socket.activeDocuments st) d) eqn:Es.
    + rewrite leave_ok by (rewrite Es; discriminate). now intros [= <- _].
    + rewrite leave_ok by (rewrite Es; discriminate). now intros [= <- _].
    + now rewrite leave_throws.
  - now intros [= <- _].
Qed.


(** The member list of every document after a join. *)
Lemma members_join (d' u' d : string) (docs : gmap string (list string)) :
  Socket.members (Presence.join d' u' docs) d
  = if decide (d' = d)
    then Socket.set_add u' (Socket.members docs d)
    else Socket.members docs d.
Proof.
  unfold Presence.join. unfold Socket.members at 1.
  case_decide as Hd.
  - subst d'. now rewrite lookup_insert_eq.
  - now rewrite lookup_insert_ne.
Qed.

(** The member list of every document after a leave. *)
Lemma members_leave (d' u' d : string) (docs : gmap string (list string)) :
  Socket.members (Presence.leave d' u' docs) d
  = if decide (d' = d)
    then Socket.set_delete u' (Socket.members docs d)
    else Socket.members docs d.
Proof.
  unfold Presence.leave, Socket.members.
  destruct (docs !! d') as [s|] eqn:E.
  - destruct (Socket.set_delete u' s) as [|y s'] eqn:Ed.
    + case_decide as Hd.
      * subst d'. rewrite lookup_delete_eq, E. simpl. now rewrite Ed.
      * now rewrite lookup_delete_ne.
    + case_decide as Hd.
      * subst d'. rewrite lookup_insert_eq, E. simpl. now rewrite Ed.
      * now rewrite lookup_insert_ne.
  - case_decide as Hd; [| reflexivity].
    subst d'. now rewrite E.
Qed.

Lemma join_preserves_inv (d u : string) (docs : gmap string (list string)) :
  Socket.registry_inv docs → Socket.registry_inv (Presence.join d u docs).
Proof.
  intros Hinv k s Hk. unfold Presence.join in Hk.
  destruct (decide (d = k)) as [<- | Hne].
  - rewrite lookup_insert_eq in Hk. injection Hk as <-.
    apply set_add_nonempty.
  - rewrite lookup_insert_ne in Hk by assumption. now apply (Hinv k).
Qed.

Lemma leave_preserves_inv (d u : string) (docs : gmap string (list string)) :
  Socket.registry_inv docs → Socket.registry_inv (Presence.leave d u docs).
Proof.
  intros Hinv. unfold Presence.leave.
  destruct (docs !! d) as [s0|] eqn:E; [| exact Hinv].
  destruct (Socket.set_delete u s0) as [|y s'] eqn:Ed; intros k s Hk.
  - destruct (decide (d = k)) as [<- | Hne].
    + rewrite lookup_delete_eq in Hk. discriminate.
    + rewrite lookup_delete_ne in Hk by assumption. now apply (Hinv k).
  - destruct (decide (d = k)) as [<- | Hne].
    + rewrite lookup_insert_eq in Hk. injection Hk as <-. discriminate.
    + rewrite lookup_insert_ne in Hk by assumption. now apply (Hinv k).
Qed.

(** The registry keeps its invariant across every handler that
    returns. *)
Lemma handle_preserves_inv (socket : string) (ev : Socket.ClientEvent)
    (st st1 : Socket.State) (out : list Socket.Emit) :
  Socket.handle socket ev st = JS.Ok (st1, out) →
  Socket.registry_inv (Socket.activeDocuments st) →
  Socket.registry_inv (Socket.activeDocuments st1).
Proof.
  intros Hh Hinv. rewrite (handle_registry _ _ _ _ _ Hh).
  destruct ev; try exact Hinv.
  - now apply join_preserves_inv.
  - now apply leave_preserves_inv.
Qed.

(** One step of a run. *)
Lemma run_cons_Ok (socket : string) (ev : Socket.ClientEvent)
    (trace : list (string * Socket.ClientEvent)) (st st' : Socket.State) :
  Socket.run ((socket, ev) :: trace) st = JS.Ok st' →
  ∃ st1 out, Socket.handle socket ev st = JS.Ok (st1, out)
             ∧ Socket.run trace st1 = JS.Ok st'.
Proof.
  cbn [Socket.run].
  destruct (Socket.handle socket ev st) as [[st1 out]|msg];
    [eauto | discriminate].
Qed.

Lemma run_preserves_inv (trace : list (string * Socket.ClientEvent))
    (st st' : Socket.State) :
  Socket.run trace st = JS.Ok st' →
  Socket.registry_inv (Socket.activeDocuments st) →
  Socket.registry_inv (Socket.activeDocuments st').
Proof.
  revert st; induction trace as [|[socket ev] trace IH]; intros st Hrun Hinv.
  - now injection Hrun as <-.
  - apply run_cons_Ok in Hrun as (st1 & out & Hh & Hrun).
    apply (IH st1 Hrun). now apply (handle_preserves_inv _ _ _ _ _ Hh).
Qed.

Lemma initial_inv : Socket.registry_inv (Socket.activeDocuments Socket.initial).
Proof. intros k s Hk. simpl in Hk. rewrite lookup_empty in Hk. discriminate. Qed.

(** Joining an untracked document and leaving it with the same user
    gives the registry back. *)
Lemma join_then_leave (docs : gmap string (list string)) (d u : string) :
  docs !! d = None → Presence.leave d u (Presence.join d u docs) = docs.
Proof.
  intros Hnone. unfold Presence.leave, Presence.join, Socket.members.
  rewrite lookup_insert_eq, Hnone. simpl.
  rewrite set_delete_add_fresh, delete_insert_eq.
  now apply delete_id.
Qed.

(** The members after a run of joins of one document. *)
Lemma members_joinAll (d : string) (who : list (string * string))
    (st : Socket.State) :
  d ∉ Socket.objectPrototypeKeys →
  ∃ st', Socket.joinAll d who st = JS.Ok st'
         ∧ Socket.members (Socket.activeDocuments st') d
           = foldl (λ acc u, Socket.set_add u acc)
               (Socket.members (Socket.activeDocuments st) d) who.*2.
Proof.
  intros Hk. unfold Socket.joinAll. revert st.
  induction who as [|[socket u] who IH]; intros st; [now exists st |].
  cbn [map Socket.run fst snd Socket.handle fmap list_fmap foldl].
  rewrite join_ok by now apply slot_ordinary.
  destruct (IH {| Socket.activeDocuments :=
                    Presence.join d u (Socket.activeDocuments st);
                  Socket.rooms :=
                    Socket.socketJoin socket d (Socket.rooms st) |})
    as (st' & Hrun & Hm).
  exists st'. split; [exact Hrun |].
  rewrite Hm. cbn [Socket.activeDocuments].
  now rewrite members_join, decide_True.
Qed.

(** C6: a document id that names a property of [Object.prototype] has no
    set semantics: the join reads the inherited property, creates no
    set, and throws at [add].  Joining "constructor" throws from the
    initial registry, so two users joining it give no member set of
    size 2. *)
Theorem join_prototype_key_throws :
  Socket.onJoinDocument "s1" "constructor" "A" Socket.initial
  = JS.Throw "TypeError: activeDocuments[documentId].add is not a function"
  ∧ Socket.joinAll "constructor" [("s1", "A"); ("s2", "B")]%string
      Socket.initial
    = JS.Throw
        "TypeError: activeDocuments[documentId].add is not a function".
Proof. split; reflexivity. Qed.

(** C7: a leave on a document id that names a property of
    [Object.prototype] is not a no-op: a user who is no member leaves
    "toString", the inherited property passes the test, and the handler
    throws at [delete]; the run of the server ends there. *)
Theorem leave_prototype_key_throws :
  Socket.handleUserLeaveDocument "s2" "toString" "B" Socket.initial
  = JS.Throw
      "TypeError: activeDocuments[documentId].delete is not a function"
  ∧ Socket.run [("s1", Socket.JoinDocument "D" "A");
                ("s2", Socket.LeaveDocument "toString" "B")]%string
      Socket.initial
    = JS.Throw
        "TypeError: activeDocuments[documentId].delete is not a function".
Proof. split; reflexivity. Qed.

(** C8: the ['disconnect'] handler leaves the registry as it is.  A
    socket that joins "D" as "A" and disconnects is in no room any more,
    and "A" is still listed for "D"; an explicit leave would have removed
    the entry. *)
Theorem disconnect_keeps_presence :
  (∀ (socket : string) (st : Socket.State),
     Socket.activeDocuments (Socket.onDisconnect socket st).1
     = Socket.activeDocuments st)
  ∧ (∃ st,
       Socket.run [("s1", Socket.JoinDocument "D" "A");
                   ("s1", Socket.Disconnect)]%string Socket.initial
       = JS.Ok st
       ∧ Socket.members (Socket.activeDocuments st) "D" = ["A"%string]
       ∧ Socket.rooms st !! "s1"%string = None)
  ∧ (∃ st,
       Socket.run [("s1", Socket.JoinDocument "D" "A");
                   ("s1", Socket.LeaveDocument "D" "A")]%string
         Socket.initial
       = JS.Ok st
       ∧ Socket.activeDocuments st !! "D"%string = None).
Proof.
  split; [| split].
  - reflexivity.
  - eexists. split; [reflexivity |]. split.
    + reflexivity.
    + cbn [Socket.onDisconnect fst Socket.rooms]. apply lookup_delete_eq.
  - eexists. split; [reflexivity |]. reflexivity.
Qed.

(** * Properties of the client stores *)

(** A remote insert of "!" at 5 into "hello" makes the mobile store hold
    "!" where the edit applier gives "hello!"; a remote delete of one
    code unit at 0 leaves the buffer of either store as it is where the
    edit applier gives "ello". *)
Lemma remote_operation_not_edit_applier :
  (MobileEditorContext.applyOperation
     (Some (MobileEditorContext.mkUser "bob"))
     (Wire.mkOp OT.insert 5 (Some "!"%string) None "alice" "doc" 1)
     "hello"
   = "!"%string
   ∧ OT.applyOperation "hello"
       (Wire.toOT 0
          (Wire.mkOp OT.insert 5 (Some "!"%string) None "alice" "doc" 1))
     = JS.Ok "hello!"%string)
  ∧ (MobileEditorContext.applyOperation
       (Some (MobileEditorContext.mkUser "bob"))
       (Wire.mkOp OT.delete 0 None (Some 1) "alice" "doc" 1)
       "hello"
     = "hello"%string
     ∧ (∀ (EditorState ContentState : Type)
          (parseRaw : string → option ContentState)
          (createWithContent : ContentState → EditorState)
          (editorState : EditorState),
          EditorContext.applyOperation EditorState ContentState
            parseRaw createWithContent
            (Some (EditorContext.mkUser "bob"))
            (Wire.mkOp OT.delete 0 None (Some 1) "alice" "doc" 1)
            editorState
          = editorState)
     ∧ OT.applyOperation "hello"
         (Wire.toOT 0 (Wire.mkOp OT.delete 0 None (Some 1) "alice" "doc" 1))
       = JS.Ok "ello"%string).
Proof. repeat split. Qed.

(** C9, as the stores have it: an operation of the local user is dropped
    and the buffer stays; of any other operation, an insert with text
    replaces the whole buffer by what the text carries (the web store
    keeps its state when the text does not parse), and everything else
    leaves the buffer as it is. *)
Theorem remote_operation_replaces_content :
  (∀ (user : option MobileEditorContext.User)
     (operation : Wire.TextOperation) (documentContent : string),
     (∀ u, user = Some u →
        Wire.userId operation = MobileEditorContext.id u →
        MobileEditorContext.applyOperation user operation documentContent
        = documentContent)
     ∧ ((∀ u, user = Some u →
           Wire.userId operation ≠ MobileEditorContext.id u) →
        (∀ t : string,
           Wire.type operation = OT.insert →
           Wire.text operation = Some t → t ≠ EmptyString →
           MobileEditorContext.applyOperation user operation documentContent
           = t)
        ∧ (Wire.type operation ≠ OT.insert
           ∨ Wire.text operation = None
           ∨ Wire.text operation = Some EmptyString →
           MobileEditorContext.applyOperation user operation documentContent
           = documentContent)))
  ∧ (∀ (EditorState ContentState : Type)
       (parseRaw : string → option ContentState)
       (createWithContent : ContentState → EditorState)
       (user : option EditorContext.User) (operation : Wire.TextOperation)
       (editorState : EditorState),
       let apply :=
         EditorContext.applyOperation EditorState ContentState
           parseRaw createWithContent user operation in
       (∀ u, user = Some u →
          Wire.userId operation = EditorContext.id u →
          apply editorState = editorState)
       ∧ ((∀ u, user = Some u →
             Wire.userId operation ≠ EditorContext.id u) →
          (∀ t : string,
             Wire.type operation = OT.insert →
             Wire.text operation = Some t → t ≠ EmptyString →
             apply editorState
             = match parseRaw t with
               | Some contentState => createWithContent contentState
               | None => editorState
               end)
          ∧ (Wire.type operation ≠ OT.insert
             ∨ Wire.text operation = None
             ∨ Wire.text operation = Some EmptyString →
             apply editorState = editorState))).
Proof.
  split.
  - intros user operation content.
    unfold MobileEditorContext.applyOperation. split.
    + intros u -> Hu. now rewrite (proj2 (String.eqb_eq _ _) Hu).
    + intros Hother.
      assert (match user with
              | Some u =>
                  String.eqb (Wire.userId operation)
                    (MobileEditorContext.id u)
              | None => false
              end = false) as ->.
      { destruct user as [u|]; [| reflexivity].
        apply String.eqb_neq. now apply Hother. }
      split.
      * intros t Hty Htxt Hne. rewrite Hty, Htxt. simpl.
        now rewrite (proj2 (String.eqb_neq _ _) Hne).
      * intros [Hty | [Htxt | Htxt]].
        -- destruct (Wire.type operation); [contradiction | |]; reflexivity.
        -- rewrite Htxt. simpl. now rewrite andb_false_r.
        -- rewrite Htxt. simpl. now rewrite andb_false_r.
  - intros E C parseRaw create user operation es apply. subst apply.
    unfold EditorContext.applyOperation. split.
    + intros u -> Hu. now rewrite (proj2 (String.eqb_eq _ _) Hu).
    + intros Hother.
      assert (match user with
              | Some u =>
                  String.eqb (Wire.userId operation) (EditorContext.id u)
              | None => false
              end = false) as ->.
      { destruct user as [u|]; [| reflexivity].
        apply String.eqb_neq. now apply Hother. }
      split.
      * intros t Hty Htxt Hne. rewrite Hty, Htxt. simpl.
        now rewrite (proj2 (String.eqb_neq _ _) Hne).
      * intros [Hty | [Htxt | Htxt]].
        -- destruct (Wire.type operation); [contradiction | |]; reflexivity.
        -- rewrite Htxt. simpl. now rewrite andb_false_r.
        -- rewrite Htxt. simpl. now rewrite andb_false_r.
Qed.

Lemma remote_operation_replaces_content_witness :
  MobileEditorContext.applyOperation
    (Some (MobileEditorContext.mkUser "bob"))
    (Wire.mkOp OT.insert 5 (Some "!"%string) None "alice" "doc" 1)
    "hello"
  = "!"%string.
Proof.
  destruct remote_operation_replaces_content as [Hmobile _].
  destruct (Hmobile (Some (MobileEditorContext.mkUser "bob"))
              (Wire.mkOp OT.insert 5 (Some "!"%string) None "alice" "doc" 1)
              "hello"%string) as [_ Hother].
  destruct Hother as [Hins _].
  - intros u [= <-]. simpl. discriminate.
  - apply Hins; [reflexivity | reflexivity | discriminate].
Defined.

(** * Further properties of the edit applier *)

Lemma str_app_cons (c : ascii) (a b : string) :
  (String c a ++ b)%string = String c (a ++ b).
Proof. reflexivity. Qed.

Lemma str_app_nil_l (b : string) : (EmptyString ++ b)%string = b.
Proof. reflexivity. Qed.

Lemma str_app_assoc (a b c : string) :
  ((a ++ b) ++ c = a ++ b ++ c)%string.
Proof.
  induction a as [|x a IH]; [reflexivity |].
  now rewrite !str_app_cons, IH.
Qed.

Lemma strlen_app (a b : string) :
  JS.strlen (a ++ b) = JS.strlen a + JS.strlen b.
Proof.
  unfold JS.strlen. induction a as [|x a IH].
  - rewrite str_app_nil_l. simpl. lia.
  - rewrite str_app_cons. simpl String.length.
    rewrite !Nat2Z.inj_succ. lia.
Qed.

Lemma strlen_nonneg (s : string) : 0 <= JS.strlen s.
Proof. unfold JS.strlen. lia. Qed.

Lemma strlen_0_empty (s : string) : JS.strlen s = 0 → s = EmptyString.
Proof. destruct s; [reflexivity | unfold JS.strlen; simpl; lia]. Qed.

Lemma prefix_suffix_id (n : nat) (s : string) :
  (Spec.prefix n s ++ Spec.suffix n s)%string = s.
Proof.
  revert s; induction n as [|n IH]; intros [|c s]; simpl; try reflexivity.
  now rewrite str_app_cons, IH.
Qed.

Lemma prefix_app_exact (x y : string) :
  Spec.prefix (String.length x) (x ++ y) = x.
Proof.
  induction x as [|c x IH].
  - rewrite str_app_nil_l. now destruct y.
  - rewrite str_app_cons. simpl. now rewrite IH.
Qed.

Lemma suffix_app_exact (x y : string) :
  Spec.suffix (String.length x) (x ++ y) = y.
Proof.
  induction x as [|c x IH].
  - rewrite str_app_nil_l. now destruct y.
  - rewrite str_app_cons. simpl. exact IH.
Qed.

Lemma length_prefix (n : nat) (s : string) :
  (n <= String.length s)%nat → String.length (Spec.prefix n s) = n.
Proof.
  revert s; induction n as [|n IH]; intros [|c s] Hn; simpl in *;
    try reflexivity; try lia.
  rewrite IH; lia.
Qed.

Lemma relIndex_range (len i : Z) :
  0 <= len → 0 <= JS.relIndex len i <= len.
Proof. intros Hlen. unfold JS.relIndex. destruct (i <? 0) eqn:E; lia. Qed.

(** Whatever the index, [slice(0, p)] and [slice(p)] cut the string in
    two at the relative index of [p]. *)
Lemma slice_0_any (s : string) (p : Z) :
  JS.slice s 0 p = Spec.prefix (Z.to_nat (JS.relIndex (JS.strlen s) p)) s.
Proof.
  pose proof (relIndex_range (JS.strlen s) p (strlen_nonneg s)) as Hr.
  unfold JS.slice.
  replace (JS.relIndex (JS.strlen s) 0) with 0
    by (unfold JS.relIndex; simpl; pose proof (strlen_nonneg s); lia).
  rewrite Z.sub_0_r, Z.max_l by lia. apply substring_0_prefix.
Qed.

Lemma sliceFrom_any (s : string) (p : Z) :
  JS.sliceFrom s p
  = Spec.suffix (Z.to_nat (JS.relIndex (JS.strlen s) p)) s.
Proof.
  pose proof (relIndex_range (JS.strlen s) p (strlen_nonneg s)) as Hr.
  unfold JS.sliceFrom. rewrite Z.max_l by lia.
  unfold JS.strlen in *.
  replace (Z.to_nat (Z.of_nat (String.length s)
                     - JS.relIndex (Z.of_nat (String.length s)) p))
    with (String.length s
          - Z.to_nat (JS.relIndex (Z.of_nat (String.length s)) p))%nat
    by lia.
  apply substring_suffix. lia.
Qed.

Lemma strlen_prefix_suffix (n : nat) (s : string) :
  (n <= String.length s)%nat →
  JS.strlen (Spec.prefix n s) = Z.of_nat n
  ∧ JS.strlen (Spec.suffix n s) = JS.strlen s - Z.of_nat n.
Proof.
  intros Hn.
  assert (JS.strlen (Spec.prefix n s) = Z.of_nat n) as Hp
    by (unfold JS.strlen; now rewrite length_prefix).
  split; [exact Hp |].
  pose proof (strlen_app (Spec.prefix n s) (Spec.suffix n s)) as H.
  rewrite prefix_suffix_id in H. lia.
Qed.

(** X1: an insert with text succeeds at every position, negative ones
    too: the text goes in at one offset [k] of the buffer, between 0 and
    its length, nothing of the buffer is lost or reordered, and the
    result is longer by exactly the length of the text.  A negative
    position counts from the end. *)
Theorem applyInsert_any_position (content t : string)
    (operation : OT.TextOperation) :
  OT.type operation = OT.insert →
  OT.text operation = Some t → t ≠ EmptyString →
  let len := JS.strlen content in
  let k := if OT.position operation <? 0
           then Z.max (len + OT.position operation) 0
           else Z.min (OT.position operation) len in
  0 <= k <= len
  ∧ OT.applyInsert content operation = JS.Ok (Spec.spliceAt content k t)
  ∧ JS.strlen (Spec.spliceAt content k t) = len + JS.strlen t.
Proof.
  intros Hty Htxt Hne len k.
  pose proof (strlen_nonneg content) as Hlen. fold len in Hlen.
  assert (k = JS.relIndex len (Z.min (OT.position operation) len)) as Hk.
  { subst k. unfold JS.relIndex.
    destruct (OT.position operation <? 0) eqn:E1;
      destruct (Z.min (OT.position operation) len <? 0) eqn:E2;
      try apply Z.ltb_lt in E1; try apply Z.ltb_ge in E1;
      try apply Z.ltb_lt in E2; try apply Z.ltb_ge in E2; lia. }
  assert (0 <= k <= len) as Hrange
    by (rewrite Hk; now apply relIndex_range).
  split; [exact Hrange | split].
  - unfold OT.applyInsert, OT.textOf. rewrite Hty, Htxt. simpl.
    replace (String.eqb t "") with false
      by (symmetry; now apply String.eqb_neq).
    simpl. rewrite slice_0_any, sliceFrom_any. fold len. now rewrite <- Hk.
  - unfold Spec.spliceAt. rewrite !strlen_app.
    destruct (strlen_prefix_suffix (Z.to_nat k) content) as [Hp Hs].
    { unfold len, JS.strlen in Hrange. lia. }
    rewrite Hp, Hs. fold len. lia.
Qed.

Lemma applyInsert_any_position_witness :
  OT.applyInsert "hello"
    (OT.mkOp OT.insert (-2) (Some "!"%string) None "alice" "doc" 1 0)
  = JS.Ok (Spec.spliceAt "hello" 3 "!").
Proof.
  apply (applyInsert_any_position "hello" "!"
           (OT.mkOp OT.insert (-2) (Some "!"%string) None "alice" "doc" 1 0));
    [reflexivity | reflexivity | discriminate].
Defined.

(** X2: a delete of positive length at or after the end of the buffer
    returns the buffer as it is; so does every such delete on the empty
    buffer from a position that is not negative. *)
Theorem applyDelete_past_end (content : string) (n : Z)
    (operation : OT.TextOperation) :
  OT.type operation = OT.delete →
  OT.length operation = Some n → 0 < n →
  JS.strlen content <= OT.position operation →
  OT.applyDelete content operation = JS.Ok content.
Proof.
  intros Hty Hlen Hn Hpos.
  pose proof (strlen_nonneg content) as H0.
  unfold OT.applyDelete, OT.lengthOf. rewrite Hty, Hlen. simpl.
  replace (n =? 0) with false by (symmetry; apply Z.eqb_neq; lia).
  simpl. f_equal.
  rewrite (Z.min_r (OT.position operation)) by lia.
  rewrite Z.sub_diag, (Z.min_r n 0), Z.add_0_r by lia.
  rewrite slice_0_any, sliceFrom_any. apply prefix_suffix_id.
Qed.

Lemma applyDelete_past_end_witness :
  OT.applyDelete "hello"
    (OT.mkOp OT.delete 7 None (Some 3) "alice" "doc" 1 0)
  = JS.Ok "hello"%string.
Proof.
  apply (applyDelete_past_end "hello" 3
           (OT.mkOp OT.delete 7 None (Some 3) "alice" "doc" 1 0));
    [reflexivity | reflexivity | lia | unfold JS.strlen; simpl; lia].
Defined.

(** Inserting at the seam of [x ++ y] puts the text on the seam. *)
Lemma applyInsert_split (x y t : string) (operation : OT.TextOperation) :
  OT.type operation = OT.insert →
  OT.text operation = Some t → t ≠ EmptyString →
  OT.position operation = JS.strlen x →
  OT.applyInsert (x ++ y) operation = JS.Ok (x ++ t ++ y)%string.
Proof.
  intros Hty Htxt Hne Hpos.
  pose proof (strlen_nonneg x). pose proof (strlen_nonneg y).
  rewrite (applyInsert_nonneg _ t) by (try assumption; lia).
  f_equal. unfold Spec.insertAt, Spec.spliceAt, Spec.clamp.
  rewrite Hpos, strlen_app, Z.min_l, Z.max_r by lia.
  unfold JS.strlen. rewrite Nat2Z.id.
  now rewrite prefix_app_exact, suffix_app_exact.
Qed.

(** Deleting [d] from [x ++ d ++ y] at the end of [x] leaves [x ++ y]. *)
Lemma applyDelete_split (x d y : string) (operation : OT.TextOperation) :
  OT.type operation = OT.delete →
  OT.length operation = Some (JS.strlen d) → d ≠ EmptyString →
  OT.position operation = JS.strlen x →
  OT.applyDelete (x ++ d ++ y) operation = JS.Ok (x ++ y)%string.
Proof.
  intros Hty Hlen Hne Hpos.
  pose proof (strlen_nonneg x). pose proof (strlen_nonneg y).
  assert (0 < JS.strlen d) as Hd.
  { pose proof (strlen_nonneg d).
    destruct (Z.eq_dec (JS.strlen d) 0) as [E|E]; [| lia].
    now apply strlen_0_empty in E. }
  rewrite (applyDelete_wellformed _ (JS.strlen d)) by (try assumption; lia).
  f_equal. unfold Spec.deleteAt, Spec.removeSpan, Spec.clamp.
  rewrite Hpos, !strlen_app.
  rewrite (Z.min_l (JS.strlen x)), Z.max_r, (Z.min_l (JS.strlen d)) by lia.
  rewrite <- strlen_app. unfold JS.strlen. rewrite !Nat2Z.id.
  rewrite prefix_app_exact, <- str_app_assoc.
  now rewrite suffix_app_exact.
Qed.

(** Every buffer splits at an offset inside it. *)
Lemma split_at (content : string) (p : Z) :
  0 <= p <= JS.strlen content →
  ∃ x y, content = (x ++ y)%string ∧ JS.strlen x = p.
Proof.
  intros Hp. exists (Spec.prefix (Z.to_nat p) content),
    (Spec.suffix (Z.to_nat p) content).
  split; [now rewrite prefix_suffix_id |].
  destruct (strlen_prefix_suffix (Z.to_nat p) content) as [H _].
  - unfold JS.strlen in Hp. lia.
  - rewrite H. lia.
Qed.

(** X3: a delete of positive length at a position that is not negative
    succeeds and shortens the buffer by the part of the span that lies
    inside it, [min(n, len - min(position, len))]; the result is never
    longer than the buffer. *)
Theorem applyDelete_length (content : string) (n : Z)
    (operation : OT.TextOperation) :
  OT.type operation = OT.delete →
  OT.length operation = Some n → 0 < n →
  0 <= OT.position operation →
  let len := JS.strlen content in
  ∃ r, OT.applyDelete content operation = JS.Ok r
       ∧ JS.strlen r
         = len - Z.min n (len - Z.min (OT.position operation) len)
       ∧ JS.strlen r <= len.
Proof.
  intros Hty Hlen Hn Hpos len.
  pose proof (strlen_nonneg content) as H0. fold len in H0.
  rewrite (applyDelete_wellformed _ n) by assumption.
  eexists. split; [reflexivity |].
  unfold Spec.deleteAt, Spec.removeSpan, Spec.clamp. fold len.
  rewrite (Z.max_r 0) by lia.
  set (p := Z.min (OT.position operation) len).
  set (m := Z.min n (len - p)).
  assert (0 <= p <= len) by (subst p; lia).
  assert (0 <= m <= len - p) by (subst m; lia).
  rewrite strlen_app.
  destruct (strlen_prefix_suffix (Z.to_nat p) content) as [Hp _].
  { unfold len, JS.strlen in *. lia. }
  destruct (strlen_prefix_suffix (Z.to_nat (p + m)) content) as [_ Hs].
  { unfold len, JS.strlen in *. lia. }
  rewrite Hp, Hs. fold len. lia.
Qed.

Lemma applyDelete_length_witness :
  ∃ r, OT.applyDelete "hello"
         (OT.mkOp OT.delete 3 None (Some 4) "alice" "doc" 1 0)
       = JS.Ok r
       ∧ JS.strlen r = 3.
Proof.
  destruct (applyDelete_length "hello" 4
              (OT.mkOp OT.delete 3 None (Some 4) "alice" "doc" 1 0))
    as (r & Hr & Hlen & _);
    [reflexivity | reflexivity | lia | simpl; lia |].
  exists r. split; [exact Hr | exact Hlen].
Defined.

(** X4: inside the buffer, an insert followed by a delete of as many
    code units at the same position gives the buffer back. *)
Theorem insert_then_delete (content t : string)
    (ins del : OT.TextOperation) :
  OT.type ins = OT.insert → OT.text ins = Some t → t ≠ EmptyString →
  OT.type del = OT.delete → OT.length del = Some (JS.strlen t) →
  OT.position del = OT.position ins →
  0 <= OT.position ins <= JS.strlen content →
  ∃ content1,
    OT.applyOperation content ins = JS.Ok content1
    ∧ OT.applyOperation content1 del = JS.Ok content.
Proof.
  intros Hti Htxt Hne Htd Hlen Hpd Hpos.
  destruct (split_at content (OT.position ins) Hpos) as (x & y & -> & Hx).
  exists (x ++ t ++ y)%string. unfold OT.applyOperation.
  rewrite Hti, Htd. split.
  - now apply applyInsert_split.
  - apply applyDelete_split; try assumption. congruence.
Qed.

Lemma insert_then_delete_witness :
  ∃ content1,
    OT.applyOperation "hello"
      (OT.mkOp OT.insert 2 (Some "XY"%string) None "alice" "doc" 1 0)
    = JS.Ok content1
    ∧ OT.applyOperation content1
        (OT.mkOp OT.delete 2 None (Some 2) "alice" "doc" 2 0)
      = JS.Ok "hello"%string.
Proof.
  apply (insert_then_delete "hello" "XY"
           (OT.mkOp OT.insert 2 (Some "XY"%string) None "alice" "doc" 1 0)
           (OT.mkOp OT.delete 2 None (Some 2) "alice" "doc" 2 0));
    try reflexivity; [discriminate | unfold JS.strlen; simpl; lia].
Defined.

(** X5: [applyOperation] returns a buffer exactly for an insert that
    carries text and for a delete whose length is there and not zero,
    whatever the buffer and the position; every other operation throws,
    'Unknown operation type' exactly when the type is neither. *)
Theorem applyOperation_outcome (content : string)
    (operation : OT.TextOperation) :
  ((∃ r, OT.applyOperation content operation = JS.Ok r)
   ↔ (OT.type operation = OT.insert
      ∧ ∃ t, OT.text operation = Some t ∧ t ≠ EmptyString)
     ∨ (OT.type operation = OT.delete
        ∧ ∃ n, OT.length operation = Some n ∧ n ≠ 0))
  ∧ (OT.applyOperation content operation
     = JS.Throw "Unknown operation type"
     ↔ OT.type operation = OT.otherType).
Proof.
  unfold OT.applyOperation, OT.applyInsert, OT.applyDelete.
  destruct (OT.type operation) eqn:Ety; simpl.
  - destruct (JS.truthyString (OT.text operation)) eqn:Et; simpl.
    + apply truthyString_true in Et. split.
      * split; [intros _; left; now split | eauto].
      * split; discriminate.
    + split.
      * split; [intros (r & [=]) |].
        intros [(_ & Ht) | ([=] & _)].
        apply truthyString_true in Ht. congruence.
      * split; discriminate.
  - destruct (JS.truthyNumber (OT.length operation)) eqn:En; simpl.
    + apply truthyNumber_true in En. split.
      * split; [intros _; right; now split | eauto].
      * split; discriminate.
    + split.
      * split; [intros (r & [=]) |].
        intros [([=] & _) | (_ & Hn)].
        apply truthyNumber_true in Hn. congruence.
      * split; discriminate.
  - split.
    + split; [intros (r & [=]) |].
      intros [([=] & _) | ([=] & _)].
    + split; reflexivity.
Qed.

(** * Further properties of the transform *)

(** Case analysis on every test of [transformOperation], with the tests
    turned into arithmetic facts. *)
Ltac transform_cases :=
  unfold OT.transformOperation;
  repeat match goal with
         | |- context [if ?b then _ else _] => destruct b eqn:?
         end;
  cbn [OT.position OT.withPosition];
  repeat match goal with
         | H : (_ <=? _) = true |- _ => apply Z.leb_le in H
         | H : (_ <=? _) = false |- _ => apply Z.leb_gt in H
         | H : (_ <? _) = true |- _ => apply Z.ltb_lt in H
         | H : (_ <? _) = false |- _ => apply Z.ltb_ge in H
         end.

(** An operation is left alone by one that is not strictly earlier. *)
Lemma transform_not_earlier (operation against : OT.TextOperation) :
  OT.timestamp operation <= OT.timestamp against →
  OT.transformOperation operation against = operation.
Proof.
  intros Hts. unfold OT.transformOperation.
  replace (OT.timestamp operation >? OT.timestamp against) with false
    by (symmetry; rewrite Z.gtb_ltb; apply Z.ltb_ge; lia).
  now destruct (_ || _).
Qed.

(** The shift against an earlier insert with text. *)
Lemma transform_insert_shift (operation against : OT.TextOperation)
    (t : string) :
  OT.userId operation ≠ OT.userId against →
  OT.documentId operation = OT.documentId against →
  OT.timestamp against < OT.timestamp operation →
  OT.type against = OT.insert →
  OT.text against = Some t → t ≠ EmptyString →
  OT.position against <= OT.position operation →
  OT.transformOperation operation against
  = OT.withPosition operation (OT.position operation + JS.strlen t).
Proof.
  intros Hu Hd Hts Hty Htxt Hne Hle. unfold OT.transformOperation, OT.textOf.
  rewrite (transform_guard _ _ Hu Hd), Hty, Htxt.
  replace (OT.timestamp operation >? OT.timestamp against) with true
    by (symmetry; apply Z.gtb_lt; lia).
  replace (OT.position against <=? OT.position operation) with true
    by (symmetry; apply Z.leb_le; lia).
  simpl. now rewrite (proj2 (String.eqb_neq _ _) Hne).
Qed.

(** The shift against an earlier delete whose span ends at or before the
    position. *)
Lemma transform_delete_shift (operation against : OT.TextOperation)
    (n : Z) :
  OT.userId operation ≠ OT.userId against →
  OT.documentId operation = OT.documentId against →
  OT.timestamp against < OT.timestamp operation →
  OT.type against = OT.delete →
  OT.length against = Some n → 0 < n →
  OT.position against + n <= OT.position operation →
  OT.transformOperation operation against
  = OT.withPosition operation (OT.position operation - n).
Proof.
  intros Hu Hd Hts Hty Hlen Hn Hle. unfold OT.transformOperation, OT.lengthOf.
  rewrite (transform_guard _ _ Hu Hd), Hty, Hlen.
  replace (OT.timestamp operation >? OT.timestamp against) with true
    by (symmetry; apply Z.gtb_lt; lia).
  replace (OT.position against <? OT.position operation) with true
    by (symmetry; apply Z.ltb_lt; lia).
  simpl. replace (n =? 0) with false by (symmetry; apply Z.eqb_neq; lia).
  simpl. f_equal. lia.
Qed.

(** X6: positions stay on the non-negative side: when the pending and
    the applied position are not negative, neither is the transformed
    one, whatever else the two operations carry. *)
Theorem transform_position_nonneg (pending applied : OT.TextOperation) :
  0 <= OT.position pending → 0 <= OT.position applied →
  0 <= OT.position (OT.transformOperation pending applied).
Proof.
  intros Hp Ha.
  pose proof (strlen_nonneg (OT.textOf applied)).
  transform_cases; lia.
Qed.

Lemma transform_position_nonneg_witness :
  0 <= OT.position
         (OT.transformOperation
            (OT.mkOp OT.insert 4 (Some "Y"%string) None "bob" "doc" 2 0)
            (OT.mkOp OT.delete 2 None (Some 5) "alice" "doc" 1 0)).
Proof.
  apply (transform_position_nonneg
           (OT.mkOp OT.insert 4 (Some "Y"%string) None "bob" "doc" 2 0)
           (OT.mkOp OT.delete 2 None (Some 5) "alice" "doc" 1 0));
    simpl; lia.
Defined.

(** X7: against an earlier delete of another user that starts before the
    pending position, the new position is the larger of the start of the
    span and the old position less the length.  So for a length that is
    not negative it lies between the start of the span and the old
    position, and a position inside the span or at its end lands on the
    start of the span. *)
Theorem transform_delete_collapse (pending applied : OT.TextOperation)
    (n : Z) :
  OT.userId pending ≠ OT.userId applied →
  OT.documentId pending = OT.documentId applied →
  OT.timestamp applied < OT.timestamp pending →
  OT.type applied = OT.delete →
  OT.length applied = Some n →
  OT.position applied < OT.position pending →
  let p' := OT.position (OT.transformOperation pending applied) in
  p' = Z.max (OT.position applied) (OT.position pending - n)
  ∧ (0 <= n → OT.position applied <= p' <= OT.position pending)
  ∧ (OT.position pending <= OT.position applied + n →
     p' = OT.position applied).
Proof.
  intros Hu Hd Hts Hty Hlen Hlt p'.
  assert (p' = Z.max (OT.position applied) (OT.position pending - n)) as ->.
  { subst p'. unfold OT.transformOperation, OT.lengthOf.
    rewrite (transform_guard _ _ Hu Hd), Hty, Hlen.
    replace (OT.timestamp pending >? OT.timestamp applied) with true
      by (symmetry; apply Z.gtb_lt; lia).
    replace (OT.position applied <? OT.position pending) with true
      by (symmetry; apply Z.ltb_lt; lia).
    simpl. destruct (n =? 0) eqn:E; simpl.
    - apply Z.eqb_eq in E. lia.
    - lia. }
  repeat split; lia.
Qed.

Lemma transform_delete_collapse_witness :
  OT.position
    (OT.transformOperation
       (OT.mkOp OT.insert 4 (Some "Y"%string) None "bob" "doc" 2 0)
       (OT.mkOp OT.delete 2 None (Some 5) "alice" "doc" 1 0))
  = 2.
Proof.
  destruct (transform_delete_collapse
              (OT.mkOp OT.insert 4 (Some "Y"%string) None "bob" "doc" 2 0)
              (OT.mkOp OT.delete 2 None (Some 5) "alice" "doc" 1 0) 5)
    as (_ & _ & Hin);
    [discriminate | reflexivity | simpl; lia | reflexivity | reflexivity
    | simpl; lia |].
  apply Hin. simpl. lia.
Defined.

(** X8: the transform keeps the order of positions: of two pending
    operations that differ in position only, the one that is not further
    right before the transform is not further right after it. *)
Theorem transform_monotone (pending applied : OT.TextOperation)
    (p1 p2 : Z) :
  p1 <= p2 →
  OT.position
    (OT.transformOperation (OT.withPosition pending p1) applied)
  <= OT.position
       (OT.transformOperation (OT.withPosition pending p2) applied).
Proof.
  intros Hle.
  pose proof (strlen_nonneg (OT.textOf applied)).
  unfold OT.transformOperation.
  cbn [OT.withPosition OT.userId OT.documentId OT.timestamp OT.position].
  repeat match goal with
         | |- context [if ?b then _ else _] => destruct b eqn:?
         end;
  cbn [OT.position OT.withPosition];
  repeat match goal with
         | H : (_ <=? _) = true |- _ => apply Z.leb_le in H
         | H : (_ <=? _) = false |- _ => apply Z.leb_gt in H
         | H : (_ <? _) = true |- _ => apply Z.ltb_lt in H
         | H : (_ <? _) = false |- _ => apply Z.ltb_ge in H
         end; lia.
Qed.

Lemma transform_monotone_witness :
  OT.position
    (OT.transformOperation
       (OT.withPosition
          (OT.mkOp OT.insert 0 (Some "Y"%string) None "bob" "doc" 2 0) 3)
       (OT.mkOp OT.delete 2 None (Some 5) "alice" "doc" 1 0))
  <= OT.position
       (OT.transformOperation
          (OT.withPosition
             (OT.mkOp OT.insert 0 (Some "Y"%string) None "bob" "doc" 2 0) 9)
          (OT.mkOp OT.delete 2 None (Some 5) "alice" "doc" 1 0)).
Proof.
  apply (transform_monotone
           (OT.mkOp OT.insert 0 (Some "Y"%string) None "bob" "doc" 2 0)
           (OT.mkOp OT.delete 2 None (Some 5) "alice" "doc" 1 0) 3 9).
  lia.
Defined.

(** ** The transform and the applier together *)

(** Every buffer splits at two offsets inside it. *)
Lemma split_at2 (content : string) (q p : Z) :
  0 <= q → q <= p → p <= JS.strlen content →
  ∃ x m y, content = (x ++ m ++ y)%string
           ∧ JS.strlen x = q ∧ JS.strlen m = p - q.
Proof.
  intros Hq Hqp Hp.
  destruct (split_at content q) as (x & r & -> & Hx); [lia |].
  rewrite strlen_app in Hp.
  destruct (split_at r (p - q)) as (m & y & -> & Hm); [lia |].
  now exists x, m, y.
Qed.

(** X9: two inserts of different users on one document, the earlier one
    at or before the later one, both inside the buffer: applying the
    earlier one and then the later one transformed against it gives the
    same buffer as applying the later one and then the earlier one
    transformed against it (which is the earlier one itself); the
    earlier text comes first. *)
Theorem insert_insert_converge (content ta tb : string)
    (a b : OT.TextOperation) :
  OT.type a = OT.insert → OT.text a = Some ta → ta ≠ EmptyString →
  OT.type b = OT.insert → OT.text b = Some tb → tb ≠ EmptyString →
  OT.userId a ≠ OT.userId b →
  OT.documentId a = OT.documentId b →
  OT.timestamp a < OT.timestamp b →
  0 <= OT.position a → OT.position a <= OT.position b →
  OT.position b <= JS.strlen content →
  ∃ c1 c2 r,
    OT.applyOperation content a = JS.Ok c1
    ∧ OT.applyOperation c1 (OT.transformOperation b a) = JS.Ok r
    ∧ OT.applyOperation content b = JS.Ok c2
    ∧ OT.applyOperation c2 (OT.transformOperation a b) = JS.Ok r
    ∧ r = Spec.spliceAt (Spec.spliceAt content (OT.position b) tb)
            (OT.position a) ta.
Proof.
  intros Hta Htxa Hna Htb Htxb Hnb Hu Hd Hts Hqa Hqp Hp.
  destruct (split_at2 content _ _ Hqa Hqp Hp) as (x & m & y & -> & Hx & Hm).
  rewrite (transform_insert_shift b a ta) by (try assumption; congruence).
  rewrite (transform_not_earlier a b) by lia.
  exists (x ++ ta ++ m ++ y)%string, ((x ++ m) ++ tb ++ y)%string,
    (x ++ ta ++ m ++ tb ++ y)%string.
  unfold OT.applyOperation. cbn [OT.withPosition OT.type].
  rewrite Hta, Htb. repeat split.
  - now apply applyInsert_split.
  - replace (x ++ ta ++ m ++ y)%string with ((x ++ ta ++ m) ++ y)%string
      by now rewrite !str_app_assoc.
    replace (x ++ ta ++ m ++ tb ++ y)%string
      with ((x ++ ta ++ m) ++ tb ++ y)%string
      by now rewrite !str_app_assoc.
    apply applyInsert_split; try assumption.
    cbn [OT.position OT.withPosition]. rewrite !strlen_app. lia.
  - rewrite <- str_app_assoc. apply applyInsert_split; try assumption.
    rewrite strlen_app. lia.
  - rewrite str_app_assoc. now apply applyInsert_split.
  - unfold Spec.spliceAt.
    replace (Z.to_nat (OT.position b)) with (String.length (x ++ m))
      by (rewrite <- (Nat2Z.id (String.length (x ++ m)));
          f_equal; fold (JS.strlen (x ++ m)); rewrite strlen_app; lia).
    rewrite <- (str_app_assoc x m y).
    rewrite prefix_app_exact, suffix_app_exact.
    replace (Z.to_nat (OT.position a)) with (String.length x)
      by (rewrite <- (Nat2Z.id (String.length x)); f_equal;
          fold (JS.strlen x); lia).
    rewrite (str_app_assoc x m).
    now rewrite prefix_app_exact, suffix_app_exact.
Qed.

Lemma insert_insert_converge_witness :
  ∃ c1 c2,
    OT.applyOperation ""
      (OT.mkOp OT.insert 0 (Some "X"%string) None "A" "doc" 1 0)
    = JS.Ok c1
    ∧ OT.applyOperation c1
        (OT.transformOperation
           (OT.mkOp OT.insert 0 (Some "Y"%string) None "B" "doc" 2 0)
           (OT.mkOp OT.insert 0 (Some "X"%string) None "A" "doc" 1 0))
      = JS.Ok "XY"%string
    ∧ OT.applyOperation ""
        (OT.mkOp OT.insert 0 (Some "Y"%string) None "B" "doc" 2 0)
      = JS.Ok c2
    ∧ OT.applyOperation c2
        (OT.transformOperation
           (OT.mkOp OT.insert 0 (Some "X"%string) None "A" "doc" 1 0)
           (OT.mkOp OT.insert 0 (Some "Y"%string) None "B" "doc" 2 0))
      = JS.Ok "XY"%string.
Proof.
  destruct (insert_insert_converge "" "X" "Y"
              (OT.mkOp OT.insert 0 (Some "X"%string) None "A" "doc" 1 0)
              (OT.mkOp OT.insert 0 (Some "Y"%string) None "B" "doc" 2 0))
    as (c1 & c2 & r & H1 & H2 & H3 & H4 & Hr);
    try reflexivity; try discriminate;
    try (unfold JS.strlen; simpl; lia).
  exists c1, c2. subst r. repeat split; assumption.
Defined.

(** Every buffer splits at three offsets inside it. *)
Lemma split_at3 (content : string) (q n p : Z) :
  0 <= q → 0 <= n → q + n <= p → p <= JS.strlen content →
  ∃ x d m y, content = (x ++ d ++ m ++ y)%string
             ∧ JS.strlen x = q ∧ JS.strlen d = n
             ∧ JS.strlen m = p - (q + n).
Proof.
  intros Hq Hn Hqp Hp.
  destruct (split_at2 content q (q + n)) as (x & d & r & -> & Hx & Hd);
    [lia | lia | lia |].
  rewrite !strlen_app in Hp.
  destruct (split_at r (p - (q + n))) as (m & y & -> & Hm); [lia |].
  exists x, d, m, y. repeat split; [assumption | lia | assumption].
Qed.

Lemma strlen_pos_nonempty (d : string) : 0 < JS.strlen d → d ≠ EmptyString.
Proof. intros H ->. unfold JS.strlen in H. simpl in H. lia. Qed.

(** X10: a delete of positive length and a later insert of another user
    on the same document, the deleted span inside the buffer and ending
    at or before the insert position: applying the delete and then the
    transformed insert gives the same buffer as applying the insert and
    then the delete. *)
Theorem delete_insert_converge (content tb : string) (n : Z)
    (a b : OT.TextOperation) :
  OT.type a = OT.delete → OT.length a = Some n → 0 < n →
  OT.type b = OT.insert → OT.text b = Some tb → tb ≠ EmptyString →
  OT.userId a ≠ OT.userId b →
  OT.documentId a = OT.documentId b →
  OT.timestamp a < OT.timestamp b →
  0 <= OT.position a → OT.position a + n <= OT.position b →
  OT.position b <= JS.strlen content →
  ∃ c1 c2 r,
    OT.applyOperation content a = JS.Ok c1
    ∧ OT.applyOperation c1 (OT.transformOperation b a) = JS.Ok r
    ∧ OT.applyOperation content b = JS.Ok c2
    ∧ OT.applyOperation c2 (OT.transformOperation a b) = JS.Ok r
    ∧ JS.strlen r = JS.strlen content - n + JS.strlen tb.
Proof.
  intros Hta Hla Hn Htb Htxb Hnb Hu Hd Hts Hqa Hqp Hp.
  destruct (split_at3 content (OT.position a) n (OT.position b))
    as (x & d & m & y & -> & Hx & Hdn & Hm); try lia.
  assert (d ≠ EmptyString) as Hdne by (apply strlen_pos_nonempty; lia).
  rewrite (transform_delete_shift b a n) by (try assumption; congruence).
  rewrite (transform_not_earlier a b) by lia.
  exists (x ++ m ++ y)%string, ((x ++ d ++ m) ++ tb ++ y)%string,
    ((x ++ m) ++ tb ++ y)%string.
  unfold OT.applyOperation. cbn [OT.withPosition OT.type].
  rewrite Hta, Htb. repeat split.
  - apply applyDelete_split; try assumption; congruence.
  - rewrite <- (str_app_assoc x m y).
    apply applyInsert_split; try assumption.
    cbn [OT.position OT.withPosition]. rewrite !strlen_app. lia.
  - replace (x ++ d ++ m ++ y)%string with ((x ++ d ++ m) ++ y)%string
      by now rewrite !str_app_assoc.
    apply applyInsert_split; try assumption.
    rewrite !strlen_app. lia.
  - replace ((x ++ d ++ m) ++ tb ++ y)%string
      with (x ++ d ++ (m ++ tb ++ y))%string
      by now rewrite !str_app_assoc.
    replace ((x ++ m) ++ tb ++ y)%string with (x ++ (m ++ tb ++ y))%string
      by now rewrite !str_app_assoc.
    apply applyDelete_split; try assumption; congruence.
  - rewrite !strlen_app. lia.
Qed.

Lemma delete_insert_converge_witness :
  ∃ c1 c2 r,
    OT.applyOperation "hello world"
      (OT.mkOp OT.delete 0 None (Some 6) "A" "doc" 1 0)
    = JS.Ok c1
    ∧ OT.applyOperation c1
        (OT.transformOperation
           (OT.mkOp OT.insert 11 (Some "!"%string) None "B" "doc" 2 0)
           (OT.mkOp OT.delete 0 None (Some 6) "A" "doc" 1 0))
      = JS.Ok r
    ∧ OT.applyOperation "hello world"
        (OT.mkOp OT.insert 11 (Some "!"%string) None "B" "doc" 2 0)
      = JS.Ok c2
    ∧ OT.applyOperation c2
        (OT.transformOperation
           (OT.mkOp OT.delete 0 None (Some 6) "A" "doc" 1 0)
           (OT.mkOp OT.insert 11 (Some "!"%string) None "B" "doc" 2 0))
      = JS.Ok r.
Proof.
  destruct (delete_insert_converge "hello world" "!" 6
              (OT.mkOp OT.delete 0 None (Some 6) "A" "doc" 1 0)
              (OT.mkOp OT.insert 11 (Some "!"%string) None "B" "doc" 2 0))
    as (c1 & c2 & r & H1 & H2 & H3 & H4 & _);
    try reflexivity; try discriminate;
    try (unfold JS.strlen; simpl; lia).
  exists c1, c2, r. repeat split; assumption.
Defined.

(** X11: a delete that comes later than an operation of another user on
    the same document and lies at or after the end of what that
    operation touched converges with it as well: after an earlier insert
    at or before its position, or an earlier delete whose span ends at
    or before its position, the moved delete removes the same code
    units, and both orders give the same buffer. *)
Theorem later_delete_converge (content : string) (k : Z)
    (a b : OT.TextOperation) :
  OT.type b = OT.delete → OT.length b = Some k → 0 < k →
  OT.userId a ≠ OT.userId b →
  OT.documentId a = OT.documentId b →
  OT.timestamp a < OT.timestamp b →
  0 <= OT.position a →
  OT.position b + k <= JS.strlen content →
  ((∃ ta, OT.type a = OT.insert ∧ OT.text a = Some ta ∧ ta ≠ EmptyString
          ∧ OT.position a <= OT.position b)
   ∨ (∃ n, OT.type a = OT.delete ∧ OT.length a = Some n ∧ 0 < n
           ∧ OT.position a + n <= OT.position b)) →
  ∃ c1 c2 r,
    OT.applyOperation content a = JS.Ok c1
    ∧ OT.applyOperation c1 (OT.transformOperation b a) = JS.Ok r
    ∧ OT.applyOperation content b = JS.Ok c2
    ∧ OT.applyOperation c2 (OT.transformOperation a b) = JS.Ok r.
Proof.
  intros Htb Hlb Hk Hu Hd Hts Hqa Hend
    [(ta & Hta & Htxa & Hna & Hqp) | (n & Hta & Hla & Hn & Hqp)].
  - destruct (split_at3 content (OT.position a)
                (OT.position b - OT.position a) (OT.position b + k))
      as (x & m & d & y & -> & Hx & Hm & Hdk); try lia.
    assert (d ≠ EmptyString) as Hdne by (apply strlen_pos_nonempty; lia).
    assert (OT.length b = Some (JS.strlen d)) as Hlb'
      by (rewrite Hlb; f_equal; lia).
    rewrite (transform_insert_shift b a ta) by (try assumption; congruence).
    rewrite (transform_not_earlier a b) by lia.
    exists (x ++ ta ++ m ++ d ++ y)%string, (x ++ m ++ y)%string,
      (x ++ ta ++ m ++ y)%string.
    unfold OT.applyOperation. cbn [OT.withPosition OT.type].
    rewrite Hta, Htb. repeat split.
    + now apply applyInsert_split.
    + replace (x ++ ta ++ m ++ d ++ y)%string
        with ((x ++ ta ++ m) ++ d ++ y)%string
        by now rewrite !str_app_assoc.
      replace (x ++ ta ++ m ++ y)%string with ((x ++ ta ++ m) ++ y)%string
        by now rewrite !str_app_assoc.
      apply applyDelete_split; try assumption.
      cbn [OT.position OT.withPosition]. rewrite !strlen_app. lia.
    + replace (x ++ m ++ d ++ y)%string with ((x ++ m) ++ d ++ y)%string
        by now rewrite !str_app_assoc.
      rewrite <- (str_app_assoc x m y).
      apply applyDelete_split; try assumption.
      rewrite strlen_app. lia.
    + now apply applyInsert_split.
  - destruct (split_at3 content (OT.position a) n (OT.position b))
      as (x & da & m & r0 & -> & Hx & Hda & Hm); try lia.
    rewrite !strlen_app in Hend.
    destruct (split_at r0 k) as (d & y & -> & Hdk); [lia |].
    assert (d ≠ EmptyString) as Hdne by (apply strlen_pos_nonempty; lia).
    assert (da ≠ EmptyString) as Hdane by (apply strlen_pos_nonempty; lia).
    assert (OT.length b = Some (JS.strlen d)) as Hlb'
      by (rewrite Hlb; f_equal; lia).
    assert (OT.length a = Some (JS.strlen da)) as Hla'
      by (rewrite Hla; f_equal; lia).
    rewrite (transform_delete_shift b a n) by (try assumption; congruence).
    rewrite (transform_not_earlier a b) by lia.
    exists (x ++ m ++ d ++ y)%string, (x ++ da ++ m ++ y)%string,
      (x ++ m ++ y)%string.
    unfold OT.applyOperation. cbn [OT.withPosition OT.type].
    rewrite Hta, Htb. repeat split.
    + now apply applyDelete_split.
    + replace (x ++ m ++ d ++ y)%string with ((x ++ m) ++ d ++ y)%string
        by now rewrite !str_app_assoc.
      rewrite <- (str_app_assoc x m y).
      apply applyDelete_split; try assumption.
      cbn [OT.position OT.withPosition]. rewrite !strlen_app. lia.
    + replace (x ++ da ++ m ++ d ++ y)%string
        with ((x ++ da ++ m) ++ d ++ y)%string
        by now rewrite !str_app_assoc.
      replace (x ++ da ++ m ++ y)%string with ((x ++ da ++ m) ++ y)%string
        by now rewrite !str_app_assoc.
      apply applyDelete_split; try assumption.
      rewrite !strlen_app. lia.
    + now apply applyDelete_split.
Qed.

Lemma later_delete_converge_witness :
  ∃ c1 c2 r,
    OT.applyOperation "hello world"
      (OT.mkOp OT.insert 0 (Some ">> "%string) None "A" "doc" 1 0)
    = JS.Ok c1
    ∧ OT.applyOperation c1
        (OT.transformOperation
           (OT.mkOp OT.delete 5 None (Some 6) "B" "doc" 2 0)
           (OT.mkOp OT.insert 0 (Some ">> "%string) None "A" "doc" 1 0))
      = JS.Ok r
    ∧ OT.applyOperation "hello world"
        (OT.mkOp OT.delete 5 None (Some 6) "B" "doc" 2 0)
      = JS.Ok c2
    ∧ OT.applyOperation c2
        (OT.transformOperation
           (OT.mkOp OT.insert 0 (Some ">> "%string) None "A" "doc" 1 0)
           (OT.mkOp OT.delete 5 None (Some 6) "B" "doc" 2 0))
      = JS.Ok r.
Proof.
  apply (later_delete_converge "hello world" 6
           (OT.mkOp OT.insert 0 (Some ">> "%string) None "A" "doc" 1 0)
           (OT.mkOp OT.delete 5 None (Some 6) "B" "doc" 2 0));
    try reflexivity; try discriminate;
    try (unfold JS.strlen; simpl; lia).
  left. exists ">> "%string. repeat split; [discriminate | simpl; lia].
Defined.

(** * Further properties of the presence registry *)

Lemma set_delete_NoDup (x : string) (s : list string) :
  NoDup s → NoDup (Socket.set_delete x s).
Proof. intros Hs. unfold Socket.set_delete. now apply NoDup_filter. Qed.

Lemma set_delete_not_elem (x : string) (s : list string) :
  x ∉ Socket.set_delete x s.
Proof. rewrite set_delete_elem. tauto. Qed.

Lemma handle_preserves_NoDup (socket : string) (ev : Socket.ClientEvent)
    (st st1 : Socket.State) (out : list Socket.Emit) :
  Socket.handle socket ev st = JS.Ok (st1, out) →
  Presence.members_NoDup st → Presence.members_NoDup st1.
Proof.
  intros Hh Hnd d. rewrite (handle_registry _ _ _ _ _ Hh).
  destruct ev as [d' u' | op | d' u' p | d' u' |]; try apply Hnd.
  - rewrite members_join. case_decide; [apply set_add_NoDup |]; apply Hnd.
  - rewrite members_leave.
    case_decide; [apply set_delete_NoDup |]; apply Hnd.
Qed.

Lemma initial_NoDup : Presence.members_NoDup Socket.initial.
Proof.
  intros d. unfold Socket.members. simpl. rewrite lookup_empty.
  apply NoDup_nil_2.
Qed.

(** One event moves the answer of [Presence.listed] as it moves the
    registry. *)
Lemma listed_step (socket : string) (ev : Socket.ClientEvent)
    (st st1 : Socket.State) (out : list Socket.Emit) (d u : string) :
  Socket.handle socket ev st = JS.Ok (st1, out) →
  bool_decide (u ∈ Socket.members (Socket.activeDocuments st1) d)
  = match ev with
    | Socket.JoinDocument d' u' =>
        if String.eqb d' d && String.eqb u' u then true
        else bool_decide (u ∈ Socket.members (Socket.activeDocuments st) d)
    | Socket.LeaveDocument d' u' =>
        if String.eqb d' d && String.eqb u' u then false
        else bool_decide (u ∈ Socket.members (Socket.activeDocuments st) d)
    | _ => bool_decide (u ∈ Socket.members (Socket.activeDocuments st) d)
    end.
Proof.
  intros Hh. rewrite (handle_registry _ _ _ _ _ Hh).
  destruct ev as [d' u' | op | d' u' p | d' u' |]; try reflexivity.
  - rewrite members_join.
    destruct (String.eqb_spec d' d) as [-> | Hd]; simpl.
    + rewrite decide_True by reflexivity.
      destruct (String.eqb_spec u' u) as [-> | Hu].
      * apply bool_decide_eq_true_2, set_add_elem. now left.
      * apply bool_decide_ext. rewrite set_add_elem.
        split; [intros [? | ?]; congruence | tauto].
    + now rewrite decide_False.
  - rewrite members_leave.
    destruct (String.eqb_spec d' d) as [-> | Hd]; simpl.
    + rewrite decide_True by reflexivity.
      destruct (String.eqb_spec u' u) as [-> | Hu].
      * apply bool_decide_eq_false_2, set_delete_not_elem.
      * apply bool_decide_ext. rewrite set_delete_elem.
        split; [tauto | intros ?; split; congruence].
    + now rewrite decide_False.
Qed.

Lemma listed_iff_last_join_aux
    (trace : list (string * Socket.ClientEvent))
    (st st' : Socket.State) (d u : string) :
  Socket.run trace st = JS.Ok st' →
  u ∈ Socket.members (Socket.activeDocuments st') d
  ↔ Presence.listed d u trace
      (bool_decide (u ∈ Socket.members (Socket.activeDocuments st) d))
    = true.
Proof.
  revert st; induction trace as [|[socket ev] trace IH]; intros st Hrun.
  - injection Hrun as <-. simpl. now rewrite bool_decide_eq_true.
  - apply run_cons_Ok in Hrun as (st1 & out & Hh & Hrun).
    rewrite (IH st1 Hrun), (listed_step _ _ _ _ _ d u Hh). now destruct ev.
Qed.

(** X13: who is listed after a trace that the server handles to its end
    can be read off the trace: a user is listed for a document exactly
    when the last join or leave that names this user and this document
    is a join (or, when there is none, when the user was listed before).
    The socket that sent the event plays no part, and relays and
    disconnects change nothing. *)
Theorem listed_iff_last_join (trace : list (string * Socket.ClientEvent))
    (st st' : Socket.State) (documentId userId : string) :
  Socket.run trace st = JS.Ok st' →
  userId ∈ Socket.members (Socket.activeDocuments st') documentId
  ↔ Presence.listed documentId userId trace
      (bool_decide
         (userId ∈ Socket.members (Socket.activeDocuments st) documentId))
    = true.
Proof. apply listed_iff_last_join_aux. Qed.

Lemma listed_iff_last_join_witness :
  "A"%string
  ∈ Socket.members
      (Socket.activeDocuments
         {| Socket.activeDocuments := {["D"%string := ["A"%string]]};
            Socket.rooms := {["s2"%string := {["D"%string]}]} |})
      "D".
Proof.
  apply (listed_iff_last_join
           [("s1", Socket.JoinDocument "D" "A");
            ("s2", Socket.JoinDocument "D" "A");
            ("s1", Socket.Disconnect)]%string Socket.initial).
  - vm_compute. reflexivity.
  - vm_compute. reflexivity.
Defined.

(** The messages of a join and of a leave are well formed when nobody is
    listed twice. *)
Lemma handle_emits_wellFormed (socket : string) (ev : Socket.ClientEvent)
    (st st1 : Socket.State) (out : list Socket.Emit) (e : Socket.Emit) :
  Presence.members_NoDup st →
  Socket.handle socket ev st = JS.Ok (st1, out) →
  e ∈ out → Presence.wellFormed e.
Proof.
  intros Hnd Hh He.
  destruct ev as [d u | op | d u p | d u |]; cbn [Socket.handle] in Hh.
  - destruct (Socket.slot (Socket.activeDocuments st) d) eqn:Es;
      [| | now rewrite join_throws in Hh];
      rewrite join_ok in Hh by (rewrite Es; discriminate);
      injection Hh as _ <-;
      (apply elem_of_cons in He as [-> | He];
       [| apply list_elem_of_singleton in He as ->]);
      cbn [Presence.wellFormed];
      try split; try (apply set_add_elem; now left);
      apply set_add_NoDup, Hnd.
  - injection Hh as _ <-. apply list_elem_of_singleton in He as ->. exact I.
  - injection Hh as _ <-. apply list_elem_of_singleton in He as ->. exact I.
  - destruct (Socket.slot (Socket.activeDocuments st) d) eqn:Es;
      [| | now rewrite leave_throws in Hh];
      rewrite leave_ok in Hh by (rewrite Es; discriminate);
      injection Hh as _ <-;
      (destruct (Socket.activeDocuments st !! d) as [s0|] eqn:E;
       [| now apply elem_of_nil in He]);
      apply list_elem_of_singleton in He as ->; cbn [Presence.wellFormed];
      (split; [apply set_delete_not_elem |]);
      apply set_delete_NoDup; specialize (Hnd d);
      unfold Socket.members in Hnd; now rewrite E in Hnd.
  - injection Hh as _ <-. now apply elem_of_nil in He.
Qed.

(** X14: every message the server sends along any trace, up to the end
    of the run, is well formed: the user list of a 'user-joined'
    contains the user who joined, that of a 'user-left' does not contain
    the user who left, and no list of a 'user-joined', 'user-left' or
    'active-users' names a user twice. *)
Theorem emitted_wellFormed (trace : list (string * Socket.ClientEvent))
    (e : Socket.Emit) :
  e ∈ Socket.emitted trace Socket.initial → Presence.wellFormed e.
Proof.
  assert (∀ st, Presence.members_NoDup st →
                e ∈ Socket.emitted trace st → Presence.wellFormed e) as H.
  { induction trace as [|[socket ev] trace IH]; intros st Hnd He.
    - now apply elem_of_nil in He.
    - cbn [Socket.emitted] in He.
      destruct (Socket.handle socket ev st) as [[st1 out]|msg] eqn:Hh;
        [| now apply elem_of_nil in He].
      apply elem_of_app in He as [He | He].
      + now apply (handle_emits_wellFormed socket ev st st1 out).
      + apply (IH st1); [| exact He].
        now apply (handle_preserves_NoDup _ _ _ _ _ Hh). }
  apply H, initial_NoDup.
Qed.

Lemma emitted_wellFormed_witness :
  Presence.wellFormed
    (Socket.ToRoom "s1" "D" (Socket.UserLeft "A" ["B"])).
Proof.
  apply (emitted_wellFormed
           [("s1", Socket.JoinDocument "D" "A");
            ("s2", Socket.JoinDocument "D" "B");
            ("s1", Socket.LeaveDocument "D" "A")]%string).
  vm_compute. do 4 apply list_elem_of_further. apply list_elem_of_here.
Defined.


(** X16: presence is kept per user, not per socket: when one user has
    joined a document, whose id is no name of [Object.prototype],
    through two sockets and one of them leaves, the three events are
    handled, the user is no longer listed, and the other socket is still
    in the room. *)
Theorem leave_from_one_socket (st : Socket.State)
    (s1 s2 documentId userId : string) :
  s1 ≠ s2 → documentId ∉ Socket.objectPrototypeKeys →
  ∃ st',
    Socket.run [(s1, Socket.JoinDocument documentId userId);
                (s2, Socket.JoinDocument documentId userId);
                (s1, Socket.LeaveDocument documentId userId)] st
    = JS.Ok st'
    ∧ (userId ∉ Socket.members (Socket.activeDocuments st') documentId)
    ∧ (∃ rs, Socket.rooms st' !! s2 = Some rs ∧ documentId ∈ rs).
Proof.
  intros Hne Hk. cbn [Socket.run Socket.handle].
  rewrite join_ok by now apply slot_ordinary.
  rewrite join_ok by now apply slot_ordinary.
  rewrite leave_ok by now apply slot_ordinary.
  eexists. split; [reflexivity |]. cbn [Socket.activeDocuments Socket.rooms].
  split.
  - rewrite members_leave, decide_True by reflexivity.
    apply set_delete_not_elem.
  - unfold Socket.socketLeave. rewrite lookup_alter_ne by assumption.
    unfold Socket.socketJoin at 1. rewrite lookup_insert_eq.
    eexists. split; [reflexivity | set_solver].
Qed.

Lemma leave_from_one_socket_witness :
  ∃ st',
    Socket.run [("s1", Socket.JoinDocument "D" "A");
                ("s2", Socket.JoinDocument "D" "A");
                ("s1", Socket.LeaveDocument "D" "A")]%string Socket.initial
    = JS.Ok st'
    ∧ ("A"%string ∉ Socket.members (Socket.activeDocuments st') "D").
Proof.
  destruct (leave_from_one_socket Socket.initial "s1" "s2" "D" "A")
    as (st' & Hrun & Hout & _).
  - discriminate.
  - vm_compute. intros H.
    repeat (apply elem_of_cons in H as [H | H]; [discriminate H |]).
    now apply elem_of_nil in H.
  - exists st'. split; assumption.
Defined.

(** ** Ordinary document ids *)

(** X23: for a document id that is no name of [Object.prototype] the
    registry holds a set.  Joining twice is joining once; joins by N
    distinct users on an untracked document are all handled and give a
    member set of size N, with the same members for every order of the
    joins; joining an untracked document and leaving it with the same
    user is handled and leaves the registry as it was, the document
    untracked. *)
Theorem presence_sets_ordinary_ids (documentId : string) :
  documentId ∉ Socket.objectPrototypeKeys →
  (∀ (st : Socket.State) (s1 s2 userId : string),
     ∃ st1 out1 st2 out2,
       Socket.onJoinDocument s1 documentId userId st = JS.Ok (st1, out1)
       ∧ Socket.onJoinDocument s2 documentId userId st1
         = JS.Ok (st2, out2)
       ∧ Socket.activeDocuments st2 = Socket.activeDocuments st1)
  ∧ (∀ (st : Socket.State) (who : list (string * string)),
       Socket.activeDocuments st !! documentId = None →
       NoDup who.*2 →
       ∃ st',
         Socket.joinAll documentId who st = JS.Ok st'
         ∧ Socket.set_size
             (Socket.members (Socket.activeDocuments st') documentId)
           = List.length who
         ∧ ∀ who' : list (string * string),
             who' ≡ₚ who →
             ∃ st'',
               Socket.joinAll documentId who' st = JS.Ok st''
               ∧ Socket.members (Socket.activeDocuments st'') documentId
                 ≡ₚ Socket.members (Socket.activeDocuments st')
                      documentId)
  ∧ (∀ (st : Socket.State) (s1 s2 userId : string),
       Socket.activeDocuments st !! documentId = None →
       ∃ st2,
         Socket.run [(s1, Socket.JoinDocument documentId userId);
                     (s2, Socket.LeaveDocument documentId userId)] st
         = JS.Ok st2
         ∧ Socket.activeDocuments st2 !! documentId = None
         ∧ Socket.activeDocuments st2 = Socket.activeDocuments st).
Proof.
  intros Hk. split; [| split].
  - intros st s1 s2 u.
    rewrite join_ok by now apply slot_ordinary.
    do 2 eexists.
    rewrite join_ok by now apply slot_ordinary.
    do 2 eexists. split; [reflexivity |]. split; [reflexivity |].
    cbn [Socket.activeDocuments]. unfold Presence.join.
    unfold Socket.members at 1. rewrite lookup_insert_eq. simpl.
    now rewrite set_add_idem, insert_insert_eq.
  - intros st who Hnone Hnd.
    assert (∀ w : list (string * string), NoDup w.*2 →
              ∃ st', Socket.joinAll documentId w st = JS.Ok st'
                     ∧ Socket.members (Socket.activeDocuments st')
                         documentId = w.*2) as Hmem.
    { intros w Hw.
      destruct (members_joinAll documentId w st Hk) as (st' & Hrun & Hm).
      exists st'. split; [exact Hrun |]. rewrite Hm.
      unfold Socket.members. rewrite Hnone. simpl.
      now rewrite (foldl_set_add_fresh w.*2 []). }
    destruct (Hmem who Hnd) as (st' & Hrun & Hm).
    exists st'. split; [exact Hrun |]. split.
    + rewrite Hm. unfold Socket.set_size. now rewrite length_fmap.
    + intros who' Hperm.
      assert (who'.*2 ≡ₚ who.*2) as Hp2 by now rewrite Hperm.
      destruct (Hmem who') as (st'' & Hrun' & Hm'); [now rewrite Hp2 |].
      exists st''. split; [exact Hrun' |]. now rewrite Hm, Hm'.
  - intros st s1 s2 u Hnone. cbn [Socket.run Socket.handle].
    rewrite join_ok by now apply slot_ordinary.
    rewrite leave_ok by now apply slot_ordinary.
    eexists. split; [reflexivity |]. cbn [Socket.activeDocuments].
    rewrite (join_then_leave _ _ _ Hnone). split; [assumption | reflexivity].
Qed.

Lemma presence_sets_ordinary_ids_witness :
  ∃ st',
    Socket.joinAll "D" [("s1", "A"); ("s2", "B"); ("s3", "C")]%string
      Socket.initial
    = JS.Ok st'
    ∧ Socket.set_size (Socket.members (Socket.activeDocuments st') "D")
      = 3%nat.
Proof.
  destruct (presence_sets_ordinary_ids "D") as (_ & Hsize & _).
  - vm_compute. intros H.
    repeat (apply elem_of_cons in H as [H | H]; [discriminate H |]).
    now apply elem_of_nil in H.
  - destruct (Hsize Socket.initial
                [("s1", "A"); ("s2", "B"); ("s3", "C")]%string)
      as (st' & Hrun & Hn & _).
    + reflexivity.
    + simpl. repeat constructor; rewrite ?elem_of_cons, ?elem_of_nil;
        intros H; repeat destruct H as [H | H]; try discriminate H; exact H.
    + exists st'. split; assumption.
Defined.

(** X24: every document in the registry has a member: in the initial
    state, after every handler that returns, hence after every trace
    the server handles to its end.  The first join of an untracked
    ordinary id creates the set with the one user; a leave of the only
    member deletes the key; a leave that leaves somebody behind keeps
    the key with the others; a leave by a non-member of an ordinary id
    is handled and leaves the registry as it is. *)
Theorem registry_invariant_reachable :
  (∀ (trace : list (string * Socket.ClientEvent)) (st' : Socket.State),
     Socket.run trace Socket.initial = JS.Ok st' →
     Socket.registry_inv (Socket.activeDocuments st'))
  ∧ (∀ (socket : string) (ev : Socket.ClientEvent)
       (st st1 : Socket.State) (out : list Socket.Emit),
       Socket.handle socket ev st = JS.Ok (st1, out) →
       Socket.registry_inv (Socket.activeDocuments st) →
       Socket.registry_inv (Socket.activeDocuments st1))
  ∧ (∀ (st : Socket.State) (socket documentId userId : string),
       documentId ∉ Socket.objectPrototypeKeys →
       Socket.activeDocuments st !! documentId = None →
       ∃ st1 out,
         Socket.onJoinDocument socket documentId userId st
         = JS.Ok (st1, out)
         ∧ Socket.activeDocuments st1 !! documentId = Some [userId])
  ∧ (∀ (st : Socket.State) (socket documentId userId : string),
       Socket.activeDocuments st !! documentId = Some [userId] →
       ∃ st1 out,
         Socket.handleUserLeaveDocument socket documentId userId st
         = JS.Ok (st1, out)
         ∧ Socket.activeDocuments st1 !! documentId = None)
  ∧ (∀ (st : Socket.State) (socket documentId userId other : string)
       (s : list string),
       Socket.activeDocuments st !! documentId = Some s →
       other ∈ s → other ≠ userId →
       ∃ st1 out s1,
         Socket.handleUserLeaveDocument socket documentId userId st
         = JS.Ok (st1, out)
         ∧ Socket.activeDocuments st1 !! documentId = Some s1
         ∧ (other ∈ s1) ∧ (userId ∉ s1))
  ∧ (∀ (st : Socket.State) (socket documentId userId : string),
       documentId ∉ Socket.objectPrototypeKeys →
       Socket.registry_inv (Socket.activeDocuments st) →
       userId ∉ Socket.members (Socket.activeDocuments st) documentId →
       ∃ st1 out,
         Socket.handleUserLeaveDocument socket documentId userId st
         = JS.Ok (st1, out)
         ∧ Socket.activeDocuments st1 = Socket.activeDocuments st).
Proof.
  repeat apply conj.
  - intros trace st' Hrun.
    apply (run_preserves_inv trace Socket.initial st' Hrun), initial_inv.
  - intros socket ev st st1 out. apply handle_preserves_inv.
  - intros st socket d u Hk Hnone.
    rewrite join_ok by now apply slot_ordinary.
    do 2 eexists. split; [reflexivity |]. cbn [Socket.activeDocuments].
    unfold Presence.join, Socket.members.
    now rewrite lookup_insert_eq, Hnone.
  - intros st socket d u Hs.
    rewrite leave_ok
      by (unfold Socket.slot; rewrite Hs; discriminate).
    do 2 eexists. split; [reflexivity |]. cbn [Socket.activeDocuments].
    unfold Presence.leave. rewrite Hs.
    unfold Socket.set_delete.
    rewrite filter_cons_False by (intros H; now apply H).
    rewrite filter_nil. apply lookup_delete_eq.
  - intros st socket d u other s Hs Hin Hne.
    rewrite leave_ok
      by (unfold Socket.slot; rewrite Hs; discriminate).
    assert (other ∈ Socket.set_delete u s) as Hin'
      by (apply set_delete_elem; now split).
    exists {| Socket.activeDocuments :=
                Presence.leave d u (Socket.activeDocuments st);
              Socket.rooms :=
                Socket.socketLeave socket d (Socket.rooms st) |}.
    eexists. exists (Socket.set_delete u s).
    split; [reflexivity |]. cbn [Socket.activeDocuments].
    unfold Presence.leave. rewrite Hs.
    destruct (Socket.set_delete u s) as [|y s'] eqn:Ed.
    + now apply elem_of_nil in Hin'.
    + rewrite lookup_insert_eq. split; [reflexivity |].
      split; [exact Hin' |]. rewrite <- Ed. apply set_delete_not_elem.
  - intros st socket d u Hk Hinv Hnot.
    rewrite leave_ok by now apply slot_ordinary.
    do 2 eexists. split; [reflexivity |]. cbn [Socket.activeDocuments].
    unfold Presence.leave. unfold Socket.members in Hnot.
    destruct (Socket.activeDocuments st !! d) as [s|] eqn:E;
      [| reflexivity].
    simpl in Hnot. rewrite (set_delete_absent _ _ Hnot).
    destruct s as [|y s]; [now apply Hinv in E |].
    now apply insert_id.
Qed.

Lemma registry_invariant_reachable_witness :
  ∃ st1 out,
    Socket.handleUserLeaveDocument "s1" "D" "A"
      {| Socket.activeDocuments := {["D"%string := ["A"%string]]};
         Socket.rooms := ∅ |}
    = JS.Ok (st1, out)
    ∧ Socket.activeDocuments st1 !! "D"%string = None.
Proof.
  destruct registry_invariant_reachable as (_ & _ & _ & Hlast & _).
  apply Hlast. cbn [Socket.activeDocuments]. apply lookup_singleton_eq.
Defined.




(** * Properties of the client store *)

Lemma findIndex_None (uid : string)
    (prev : list MobileStore.CursorPosition) :
  MobileStore.findIndex uid prev = None
  ↔ uid ∉ MobileStore.userId <$> prev.
Proof.
  induction prev as [|c prev IH]; simpl.
  - split; [intros _; apply not_elem_of_nil | reflexivity].
  - rewrite not_elem_of_cons.
    destruct (String.eqb_spec (MobileStore.userId c) uid) as [E | E].
    + split; [discriminate | intros [H _]; congruence].
    + destruct (MobileStore.findIndex uid prev); simpl.
      * split; [discriminate |]. intros [_ H]. now apply IH in H.
      * split; [| reflexivity]. intros _. split; [congruence |].
        now apply IH.
Qed.

(** The index [findIndex] returns is that of the first cursor of the
    user. *)
Lemma findIndex_Some (uid : string)
    (prev : list MobileStore.CursorPosition) (i : nat) :
  MobileStore.findIndex uid prev = Some i →
  ∃ c, prev !! i = Some c ∧ MobileStore.userId c = uid
       ∧ ∀ j c', (j < i)%nat → prev !! j = Some c' →
                 MobileStore.userId c' ≠ uid.
Proof.
  revert i; induction prev as [|c prev IH]; intros i; simpl;
    [discriminate |].
  destruct (String.eqb_spec (MobileStore.userId c) uid) as [E | E].
  - intros [= <-]. exists c. repeat split; [assumption |]. intros j c' Hj. lia.
  - destruct (MobileStore.findIndex uid prev) as [k|]; simpl;
      [| discriminate].
    intros [= <-]. destruct (IH k eq_refl) as (c0 & Hc0 & Hu & Hfirst).
    exists c0. repeat split; [assumption | assumption |].
    intros [|j] c' Hj Hc'; simpl in Hc'.
    + now injection Hc' as <-.
    + apply (Hfirst j c'); [lia | assumption].
Qed.

(** X17: a cursor message never adds a second entry for a user and
    never drops or reorders anyone: the users of the cursor list stay as
    they are when the user has a cursor, and the user is appended when
    not.  So a list with one cursor per user keeps that property under
    cursor messages and under 'user-left'. *)
Theorem cursor_users (uid : string) (pos : Z)
    (prev : list MobileStore.CursorPosition) :
  MobileStore.userId <$> MobileStore.handleCursorPosition uid pos prev
  = (if bool_decide (uid ∈ MobileStore.userId <$> prev)
     then MobileStore.userId <$> prev
     else (MobileStore.userId <$> prev) ++ [uid])
  ∧ (NoDup (MobileStore.userId <$> prev) →
     NoDup (MobileStore.userId
              <$> MobileStore.handleCursorPosition uid pos prev)
     ∧ NoDup (MobileStore.userId <$> MobileStore.removeCursor uid prev)).
Proof.
  assert (MobileStore.userId
            <$> MobileStore.handleCursorPosition uid pos prev
          = (if bool_decide (uid ∈ MobileStore.userId <$> prev)
             then MobileStore.userId <$> prev
             else (MobileStore.userId <$> prev) ++ [uid])) as Husers.
  { unfold MobileStore.handleCursorPosition.
    destruct (MobileStore.findIndex uid prev) as [i|] eqn:E.
    - assert (uid ∈ MobileStore.userId <$> prev) as Hin.
      { destruct (decide (uid ∈ MobileStore.userId <$> prev)) as [H | H];
          [exact H |]. apply findIndex_None in H. congruence. }
      rewrite bool_decide_eq_true_2 by exact Hin.
      rewrite (list_fmap_alter MobileStore.userId _ (λ x, x))
        by (apply Forall_forall; reflexivity).
      now apply list_alter_id.
    - apply findIndex_None in E.
      rewrite bool_decide_eq_false_2 by exact E.
      now rewrite fmap_app. }
  split; [exact Husers |].
  intros Hnd. split.
  - rewrite Husers. case_bool_decide as Hin; [exact Hnd |].
    apply NoDup_app. repeat split; [exact Hnd | | apply NoDup_singleton].
    intros x Hx ->%list_elem_of_singleton. contradiction.
  - unfold MobileStore.removeCursor. clear Husers.
    induction prev as [|c prev IH]; [apply NoDup_nil_2 |].
    rewrite fmap_cons in Hnd. apply NoDup_cons in Hnd as [Hc Hnd].
    destruct (decide (MobileStore.userId c ≠ uid)) as [Hk | Hk].
    + rewrite filter_cons_True by exact Hk.
      rewrite fmap_cons. apply NoDup_cons. split; [| now apply IH].
      intros Hin. apply Hc.
      apply list_elem_of_fmap in Hin as (c' & Hc' & Hin).
      apply list_elem_of_filter in Hin as [_ Hin].
      apply list_elem_of_fmap. eauto.
    + rewrite filter_cons_False by exact Hk. now apply IH.
Qed.

Lemma cursor_users_witness :
  NoDup
    (MobileStore.userId
       <$> MobileStore.handleCursorPosition "B" 7
             [MobileStore.mkCursor "A" 1 None;
              MobileStore.mkCursor "B" 2 (Some "bee"%string)]).
Proof.
  destruct (cursor_users "B" 7
              [MobileStore.mkCursor "A" 1 None;
               MobileStore.mkCursor "B" 2 (Some "bee"%string)])
    as [_ Hnd].
  apply Hnd. simpl.
  repeat constructor; rewrite ?elem_of_cons, ?elem_of_nil;
    intros H; repeat destruct H as [H | H]; try discriminate H; exact H.
Defined.

(** Changing an entry that a filter drops before and after the change
    does not show in the filtered list. *)
Lemma filter_alter_dropped (u' : string)
    (f : MobileStore.CursorPosition → MobileStore.CursorPosition)
    (l : list MobileStore.CursorPosition) (i : nat)
    (c0 : MobileStore.CursorPosition) :
  l !! i = Some c0 →
  MobileStore.userId c0 ≠ u' → MobileStore.userId (f c0) ≠ u' →
  filter (λ c, MobileStore.userId c = u') (alter f i l)
  = filter (λ c, MobileStore.userId c = u') l.
Proof.
  revert i; induction l as [|c l IH]; intros [|i] Hi H0 Hf;
    simpl in Hi; try discriminate.
  - injection Hi as ->. cbn [alter list_alter].
    now rewrite !filter_cons_False by assumption.
  - cbn [alter list_alter]. rewrite !filter_cons.
    change (list_alter f i l) with (alter f i l).
    now rewrite (IH i Hi H0 Hf).
Qed.

(** X18: after a cursor message for a user the list holds a cursor of
    that user at the new position; the cursors of every other user are
    what they were; an entry that was there keeps its place and its
    username; and when each user had one cursor at most, every cursor of
    the user is at the new position. *)
Theorem cursor_update (uid : string) (pos : Z)
    (prev : list MobileStore.CursorPosition) :
  let next := MobileStore.handleCursorPosition uid pos prev in
  (∃ c, c ∈ next ∧ MobileStore.userId c = uid
        ∧ MobileStore.position c = pos)
  ∧ (∀ u', u' ≠ uid →
       filter (λ c, MobileStore.userId c = u') next
       = filter (λ c, MobileStore.userId c = u') prev)
  ∧ (∀ i c0, MobileStore.findIndex uid prev = Some i →
       prev !! i = Some c0 →
       next !! i
       = Some (MobileStore.mkCursor uid pos (MobileStore.username c0)))
  ∧ (NoDup (MobileStore.userId <$> prev) →
     ∀ c, c ∈ next → MobileStore.userId c = uid →
          MobileStore.position c = pos).
Proof.
  intros next. subst next. unfold MobileStore.handleCursorPosition.
  destruct (MobileStore.findIndex uid prev) as [i|] eqn:E.
  - destruct (findIndex_Some uid prev i E) as (c0 & Hi & Hu & _).
    set (f := λ cursor : MobileStore.CursorPosition,
                {| MobileStore.userId := MobileStore.userId cursor;
                   MobileStore.position := pos;
                   MobileStore.username := MobileStore.username cursor |}).
    assert (alter f i prev !! i = Some (f c0)) as Hnew
      by (rewrite list_lookup_alter_eq, Hi; reflexivity).
    repeat apply conj.
    + exists (f c0). repeat split; [| exact Hu].
      apply list_elem_of_lookup. eauto.
    + intros u' Hne. apply (filter_alter_dropped u' f prev i c0 Hi);
        simpl; congruence.
    + intros j c1 [= <-] Hc1. rewrite Hi in Hc1. injection Hc1 as <-.
      rewrite Hnew. unfold f. now rewrite Hu.
    + intros Hnd c Hc Hcu.
      apply list_elem_of_lookup in Hc as [j Hj].
      destruct (decide (i = j)) as [<- | Hij].
      * rewrite Hnew in Hj. now injection Hj as <-.
      * rewrite list_lookup_alter_ne in Hj by assumption.
        exfalso. apply Hij.
        apply (NoDup_lookup (MobileStore.userId <$> prev) i j uid Hnd).
        -- rewrite list_lookup_fmap, Hi. simpl. now rewrite Hu.
        -- rewrite list_lookup_fmap, Hj. simpl. now rewrite Hcu.
  - apply findIndex_None in E. repeat apply conj.
    + exists (MobileStore.mkCursor uid pos None).
      split; [| split; reflexivity].
      apply elem_of_app. right. apply list_elem_of_here.
    + intros u' Hne. rewrite filter_app.
      rewrite (filter_cons_False _ _ []) by (simpl; congruence).
      rewrite filter_nil. apply app_nil_r.
    + discriminate.
    + intros _ c Hc Hcu. apply elem_of_app in Hc as [Hc | Hc].
      * exfalso. apply E. apply list_elem_of_fmap. eauto.
      * apply list_elem_of_singleton in Hc as ->. reflexivity.
Qed.

Lemma cursor_update_witness :
  MobileStore.handleCursorPosition "B" 7
    [MobileStore.mkCursor "A" 1 None;
     MobileStore.mkCursor "B" 2 (Some "bee"%string)] !! 1%nat
  = Some (MobileStore.mkCursor "B" 7 (Some "bee"%string)).
Proof.
  destruct (cursor_update "B" 7
              [MobileStore.mkCursor "A" 1 None;
               MobileStore.mkCursor "B" 2 (Some "bee"%string)])
    as (_ & _ & Hkeep & _).
  apply (Hkeep 1%nat (MobileStore.mkCursor "B" 2 (Some "bee"%string)));
    reflexivity.
Defined.

(** ** The store, the server and another store *)

(** X19: what an edit on one device does to another.  A joined client
    that calls [updateContent] holds the new content and sends one
    operation; the server relays that operation unchanged to the room of
    the document and keeps its state; the store of a client that gets
    it takes over the new content exactly when the sender is not the
    user its listener was registered with and the new content is not
    empty.  That user is the one of the render in which the socket
    appeared: a listener registered with no user, or with another user
    than the one now signed in, lets an edit of the store's own user
    replace the buffer.  An edit that empties the document leaves the
    receiving buffer as it was. *)
Theorem edit_reaches_other_store
    (envA : MobileStore.Env) (uA : MobileEditorContext.User)
    (listenerUser : option MobileEditorContext.User)
    (stA stB : MobileStore.State) (documentId newContent : string)
    (now : Z) (sid : string) (srv : Socket.State) :
  MobileStore.user envA = Some uA → MobileStore.socket envA = true →
  MobileStore.currentDocumentId stA = Some documentId →
  documentId ≠ EmptyString →
  ∃ operation,
    MobileStore.updateContent envA newContent now stA
    = ({| MobileStore.documentContent := newContent;
          MobileStore.currentDocumentId := Some documentId;
          MobileStore.activeUsers := MobileStore.activeUsers stA;
          MobileStore.cursorPositions := MobileStore.cursorPositions stA;
          MobileStore.isConnectedToDocument :=
            MobileStore.isConnectedToDocument stA |},
       [Socket.DocumentOperationEvent operation])
    ∧ Socket.handle sid (Socket.DocumentOperationEvent operation) srv
      = JS.Ok (srv, [Socket.ToRoom sid documentId
                       (Socket.DocumentOperation operation)])
    ∧ MobileStore.documentContent
        (MobileStore.receive listenerUser
           (Socket.DocumentOperation operation) stB)
      = (if bool_decide
              (MobileEditorContext.id <$> listenerUser
               = Some (MobileEditorContext.id uA))
         then MobileStore.documentContent stB
         else if bool_decide (newContent = EmptyString)
              then MobileStore.documentContent stB
              else newContent).
Proof.
  intros Hu Hs Hd Hne. eexists. unfold MobileStore.updateContent.
  rewrite Hu, Hs, Hd. cbn [JS.truthyString default].
  rewrite (proj2 (String.eqb_neq _ _) Hne). cbn [negb andb].
  split; [reflexivity | split; [reflexivity |]].
  cbn [MobileStore.receive MobileStore.documentContent].
  unfold MobileEditorContext.applyOperation.
  cbn [Wire.userId Wire.type Wire.text OT.type_eqb JS.truthyString default
       andb].
  destruct listenerUser as [uB|]; cbn [fmap option_fmap option_map].
  - destruct (String.eqb_spec (MobileEditorContext.id uA)
                (MobileEditorContext.id uB)) as [E | E].
    + rewrite bool_decide_eq_true_2 by congruence. reflexivity.
    + rewrite bool_decide_eq_false_2 by congruence.
      destruct (String.eqb_spec newContent "") as [-> | E'].
      * now rewrite bool_decide_eq_true_2.
      * now rewrite bool_decide_eq_false_2.
  - rewrite bool_decide_eq_false_2 by discriminate.
    destruct (String.eqb_spec newContent "") as [-> | E'].
    + now rewrite bool_decide_eq_true_2.
    + now rewrite bool_decide_eq_false_2.
Qed.

Lemma edit_reaches_other_store_witness :
  ∃ operation,
    (MobileStore.updateContent
       (MobileStore.mkEnv (Some (MobileEditorContext.mkUser "alice")) true)
       "new text" 5
       (MobileStore.mkState "old" (Some "doc"%string) [] [] true)).2
    = [Socket.DocumentOperationEvent operation]
    ∧ MobileStore.documentContent
        (MobileStore.receive None
           (Socket.DocumentOperation operation)
           (MobileStore.mkState "old" (Some "doc"%string) [] [] true))
      = "new text"%string.
Proof.
  destruct (edit_reaches_other_store
              (MobileStore.mkEnv
                 (Some (MobileEditorContext.mkUser "alice")) true)
              (MobileEditorContext.mkUser "alice")
              None
              (MobileStore.mkState "old" (Some "doc"%string) [] [] true)
              (MobileStore.mkState "old" (Some "doc"%string) [] [] true)
              "doc" "new text" 5 "s1" Socket.initial)
    as (operation & Hup & _ & Hrecv);
    [reflexivity | reflexivity | reflexivity | discriminate |].
  exists operation. split.
  - now rewrite Hup.
  - rewrite Hrecv. reflexivity.
Defined.





(** X22: without a current document the store sends nothing.  When the
    socket or the user is missing, or the current document id is unset
    or the empty string, [leaveDocument] sends nothing and keeps the
    state, [sendCursorPosition] sends nothing, and [updateContent] sends
    nothing but still replaces the local buffer, so the edit stays on
    the device.  In every other case each of the three sends one
    event. *)
Theorem no_document_no_traffic (env : MobileStore.Env)
    (st : MobileStore.State) (newContent : string) (now pos : Z) :
  let idle :=
    MobileStore.socket env = false ∨ MobileStore.user env = None
    ∨ MobileStore.currentDocumentId st = None
    ∨ MobileStore.currentDocumentId st = Some EmptyString in
  (idle →
     MobileStore.leaveDocument env st = (st, [])
     ∧ MobileStore.sendCursorPosition env pos st = []
     ∧ (MobileStore.updateContent env newContent now st).2 = []
     ∧ MobileStore.documentContent
         (MobileStore.updateContent env newContent now st).1
       = newContent)
  ∧ (¬ idle →
     List.length (MobileStore.leaveDocument env st).2 = 1%nat
     ∧ List.length (MobileStore.sendCursorPosition env pos st) = 1%nat
     ∧ List.length (MobileStore.updateContent env newContent now st).2
       = 1%nat).
Proof.
  intros idle. subst idle.
  unfold MobileStore.leaveDocument, MobileStore.sendCursorPosition,
    MobileStore.updateContent.
  destruct (MobileStore.socket env), (MobileStore.user env) as [u|],
    (MobileStore.currentDocumentId st) as [[|c d]|];
    cbn [JS.truthyString String.eqb negb andb fst snd
         MobileStore.documentContent List.length];
    (split;
     [ intros Hidle;
       first [ destruct Hidle as [H | [H | [H | H]]]; discriminate H
             | repeat split; reflexivity ]
     | intros Hn;
       first [ exfalso; apply Hn; tauto
             | repeat split; reflexivity ] ]).
Qed.

Lemma no_document_no_traffic_witness :
  MobileStore.leaveDocument
    (MobileStore.mkEnv (Some (MobileEditorContext.mkUser "alice")) true)
    (MobileStore.mkState "text" (Some ""%string) [] [] true)
  = (MobileStore.mkState "text" (Some ""%string) [] [] true, []).
Proof.
  destruct (no_document_no_traffic
              (MobileStore.mkEnv
                 (Some (MobileEditorContext.mkUser "alice")) true)
              (MobileStore.mkState "text" (Some ""%string) [] [] true)
              "x" 0 0) as [Hidle _].
  apply Hidle. right. right. right. reflexivity.
Defined.
